(** * Equipment rules of the chore board schema

    A shallow embedding of the equipment part of the database schema
    (supabase/migrations): the enum types [equipment_slot] and [item_type],
    the tables [heroes], [items], [hero_inventory] and [hero_equipment], the
    trigger functions [validate_equipment_slot] and [check_two_handed_weapon],
    and the triggers [validate_equipment_slot_trigger] and
    [enforce_two_handed_weapon] declared on [hero_equipment].

    A table with a primary key is a finite map from its key to the remaining
    columns.  The timestamp columns ([created_at], [acquired_at],
    [equipped_at]) and the display columns of [items] take no part in any
    rule below and are left out.  Statements run as a role that is not
    subject to row level security: the migrations declare SELECT policies
    only. *)

From stdpp Require Import gmap strings list fin_maps.

Open Scope string_scope.

(** ** Enum types *)

(** [CREATE TYPE equipment_slot AS ENUM ('helm', 'weapon', 'shield', 'armor', 'gloves')] *)
Module Slot.
Inductive equipment_slot : Set := helm | weapon | shield | armor | gloves.
End Slot.
Abbreviation equipment_slot := Slot.equipment_slot.

(** [CREATE TYPE item_type AS ENUM ('helm', 'weapon', 'shield', 'armor',
    'gloves', 'two_handed_weapon', 'robe')] *)
Module ItemType.
Inductive item_type : Set :=
  helm | weapon | shield | armor | gloves | two_handed_weapon | robe.
End ItemType.
Abbreviation item_type := ItemType.item_type.

#[global] Instance equipment_slot_eq_dec : EqDecision equipment_slot.
Proof. solve_decision. Defined.

#[global] Instance item_type_eq_dec : EqDecision item_type.
Proof. solve_decision. Defined.

Definition equipment_slot_code (s : equipment_slot) : nat :=
  match s with
  | Slot.helm => 0 | Slot.weapon => 1 | Slot.shield => 2
  | Slot.armor => 3 | Slot.gloves => 4
  end.

Definition equipment_slot_of_code (n : nat) : option equipment_slot :=
  match n with
  | 0 => Some Slot.helm | 1 => Some Slot.weapon | 2 => Some Slot.shield
  | 3 => Some Slot.armor | 4 => Some Slot.gloves | _ => None
  end.

#[global] Instance equipment_slot_countable : Countable equipment_slot :=
  inj_countable equipment_slot_code equipment_slot_of_code
    (λ s, match s with
          | Slot.helm | Slot.weapon | Slot.shield | Slot.armor | Slot.gloves =>
              eq_refl
          end).

(** The output function of [equipment_slot]: the cast [slot::text]. *)
Definition equipment_slot_out (s : equipment_slot) : string :=
  match s with
  | Slot.helm => "helm"
  | Slot.weapon => "weapon"
  | Slot.shield => "shield"
  | Slot.armor => "armor"
  | Slot.gloves => "gloves"
  end.

(** The input function of [item_type]: the cast [text::item_type], which
    fails on a text that is not a label of the enum. *)
Definition item_type_in (t : string) : option item_type :=
  if String.eqb t "helm" then Some ItemType.helm
  else if String.eqb t "weapon" then Some ItemType.weapon
  else if String.eqb t "shield" then Some ItemType.shield
  else if String.eqb t "armor" then Some ItemType.armor
  else if String.eqb t "gloves" then Some ItemType.gloves
  else if String.eqb t "two_handed_weapon" then Some ItemType.two_handed_weapon
  else if String.eqb t "robe" then Some ItemType.robe
  else None.

(** [slot::text::item_type] *)
Definition slot_text_item_type (s : equipment_slot) : option item_type :=
  item_type_in (equipment_slot_out s).

(** [x = ANY(arr)] and [x IN (...)] *)
Definition eq_any {A} `{EqDecision A} (x : A) (arr : list A) : bool :=
  bool_decide (x ∈ arr).

Infix "=ANY" := eq_any (at level 70, no associativity).

(** ** Tables *)

Definition uuid : Set := N.

(** A row of [hero_equipment]; its primary key is [(hero_id, slot)]. *)
Record hero_equipment_row : Set := mk_hero_equipment_row {
  hero_id : uuid;
  item_id : uuid;
  slot : equipment_slot
}.

Record database : Type := mk_database {
  (** [heroes], by [id] *)
  heroes : gset uuid;
  (** [items]: [id] to [item_types item_type[] NOT NULL] *)
  items : gmap uuid (list item_type);
  (** [hero_inventory]: [(hero_id, item_id)] to [quantity] *)
  hero_inventory : gmap (uuid * uuid) Z;
  (** [hero_equipment]: [(hero_id, slot)] to [item_id] *)
  hero_equipment : gmap (uuid * equipment_slot) uuid
}.

Definition with_hero_equipment
    (e : gmap (uuid * equipment_slot) uuid) (d : database) : database :=
  {| heroes := heroes d; items := items d;
     hero_inventory := hero_inventory d; hero_equipment := e |}.

(** ** Errors and the statement monad *)

Inductive sql_error : Set :=
  | raise_exception (message : string)
  | foreign_key_violation (constraint : string).

Inductive result (A : Type) : Type :=
  | Ok (a : A)
  | Err (e : sql_error).
Arguments Ok {A} a.
Arguments Err {A} e.

#[global] Instance result_ret : MRet result := λ A a, Ok a.

#[global] Instance result_bind : MBind result := λ A B k r,
  match r with
  | Ok a => k a
  | Err e => Err e
  end.

(** A statement that raises is rolled back: the database it leaves behind is
    the one it started from. *)
Definition commit (d : database) (r : result database) : database :=
  match r with
  | Ok d' => d'
  | Err _ => d
  end.

(** ** Trigger functions *)

(** [EXISTS (SELECT 1 FROM items WHERE id = i AND cond)], where [cond] reads
    the [item_types] column. *)
Definition exists_item (d : database) (i : uuid)
    (cond : list item_type → bool) : bool :=
  match items d !! i with
  | Some item_types => cond item_types
  | None => false
  end.

(** The condition shared by [validate_equipment_slot] and the CHECK
    constraint [valid_equipment_slot]: direct slot match, or a two-handed
    weapon in the weapon or shield slot, or a robe in the armor or helm
    slot. *)
Definition can_equip (item_types : list item_type) (s : equipment_slot) : bool :=
  match slot_text_item_type s with
  | Some t => t =ANY item_types
  | None => false
  end
  || ((s =ANY [Slot.weapon; Slot.shield])
      && (ItemType.two_handed_weapon =ANY item_types))
  || ((s =ANY [Slot.armor; Slot.helm])
      && (ItemType.robe =ANY item_types)).

Definition IncompatibleSlotError : sql_error :=
  raise_exception "Item cannot be equipped in the specified slot".

(** [validate_equipment_slot()], a BEFORE trigger function: raises unless the
    item of [NEW] exists and fits [NEW.slot], and returns [NEW] otherwise. *)
Definition validate_equipment_slot (d : database) (NEW : hero_equipment_row)
    : result (database * hero_equipment_row) :=
  if negb (exists_item d (item_id NEW) (λ item_types, can_equip item_types (slot NEW)))
  then Err IncompatibleSlotError
  else Ok (d, NEW).

(** The CHECK constraint [valid_equipment_slot] that one revision of the
    migration puts on [hero_equipment] instead of the trigger. *)
Definition valid_equipment_slot (d : database) (r : hero_equipment_row) : bool :=
  exists_item d (item_id r) (λ item_types, can_equip item_types (slot r)).

(** [DELETE FROM hero_equipment WHERE cond].  No trigger of the schema fires
    on DELETE, so the statement only removes the rows. *)
Definition delete_from_hero_equipment
    (cond : hero_equipment_row → bool) (d : database) : database :=
  with_hero_equipment
    (filter (λ kv, cond (mk_hero_equipment_row kv.1.1 kv.2 kv.1.2) = false)
            (hero_equipment d))
    d.

(** The WHERE clause of the DELETE in [check_two_handed_weapon]:
    [hero_id = NEW.hero_id AND slot IN ('weapon', 'shield') AND slot != NEW.slot] *)
Definition other_hand_of (NEW r : hero_equipment_row) : bool :=
  bool_decide (hero_id r = hero_id NEW)
  && (slot r =ANY [Slot.weapon; Slot.shield])
  && negb (bool_decide (slot r = slot NEW)).

(** [check_two_handed_weapon()], an AFTER trigger function: when the item of
    [NEW] is a two-handed weapon, clears the other one of the weapon and
    shield slots of the hero. *)
Definition check_two_handed_weapon (d : database) (NEW : hero_equipment_row)
    : result (database * hero_equipment_row) :=
  if exists_item d (item_id NEW) (λ item_types, ItemType.two_handed_weapon =ANY item_types)
  then
    Ok (delete_from_hero_equipment (other_hand_of NEW) d, NEW)
  else Ok (d, NEW).

(** ** Triggers *)

Inductive trigger_timing : Set := BEFORE | AFTER.
Inductive trigger_event : Set := INSERT | UPDATE | DELETE.

#[global] Instance trigger_timing_eq_dec : EqDecision trigger_timing.
Proof. solve_decision. Defined.

#[global] Instance trigger_event_eq_dec : EqDecision trigger_event.
Proof. solve_decision. Defined.

(** [CREATE TRIGGER name timing events ON hero_equipment FOR EACH ROW
    WHEN (cond) EXECUTE FUNCTION f()] *)
Record trigger : Type := mk_trigger {
  tg_name : string;
  tg_timing : trigger_timing;
  tg_events : list trigger_event;
  tg_when : hero_equipment_row → bool;
  tg_function : database → hero_equipment_row → result (database * hero_equipment_row)
}.

Definition validate_equipment_slot_trigger : trigger :=
  {| tg_name := "validate_equipment_slot_trigger";
     tg_timing := BEFORE;
     tg_events := [INSERT; UPDATE];
     tg_when := λ _, true;
     tg_function := validate_equipment_slot |}.

Definition enforce_two_handed_weapon : trigger :=
  {| tg_name := "enforce_two_handed_weapon";
     tg_timing := AFTER;
     tg_events := [INSERT; UPDATE];
     tg_when := λ NEW, slot NEW =ANY [Slot.weapon; Slot.shield];
     tg_function := check_two_handed_weapon |}.

(** The triggers declared on [hero_equipment]. *)
Definition hero_equipment_triggers : list trigger :=
  [validate_equipment_slot_trigger; enforce_two_handed_weapon].

(** Fires, in order, the row triggers of the given timing and event whose
    WHEN condition holds for the row; a trigger function that raises aborts
    the statement. *)
Fixpoint fire (tm : trigger_timing) (ev : trigger_event) (tgs : list trigger)
    (d : database) (r : hero_equipment_row)
    : result (database * hero_equipment_row) :=
  match tgs with
  | [] => Ok (d, r)
  | tg :: tgs' =>
      if bool_decide (tg_timing tg = tm) && (ev =ANY tg_events tg) && tg_when tg r
      then '(d', r') ← tg_function tg d r; fire tm ev tgs' d' r'
      else fire tm ev tgs' d r
  end.

(** ** Statements on [hero_equipment] *)

Definition row_key (r : hero_equipment_row) : uuid * equipment_slot :=
  (hero_id r, slot r).

(** Stores the row under its primary key. *)
Definition put_row (r : hero_equipment_row) (d : database) : database :=
  with_hero_equipment (<[row_key r := item_id r]> (hero_equipment d)) d.

(** [hero_id uuid REFERENCES heroes(id)] *)
Definition check_hero_fkey (d : database) (r : hero_equipment_row) : result unit :=
  if bool_decide (hero_id r ∈ heroes d) then Ok ()
  else Err (foreign_key_violation "hero_equipment_hero_id_fkey").

(** [item_id uuid REFERENCES items(id)] *)
Definition check_item_fkey (d : database) (r : hero_equipment_row) : result unit :=
  if bool_decide (is_Some (items d !! item_id r)) then Ok ()
  else Err (foreign_key_violation "hero_equipment_item_id_fkey").

(** [INSERT INTO hero_equipment (hero_id, item_id, slot) VALUES (h, i, s)
     ON CONFLICT (hero_id, slot) DO UPDATE SET item_id = EXCLUDED.item_id]:
    the BEFORE INSERT triggers fire on the proposed row; when no row has its
    key the row is inserted and the AFTER INSERT triggers fire; otherwise the
    BEFORE UPDATE triggers fire, the [item_id] of the existing row is
    replaced and the AFTER UPDATE triggers fire.  A foreign key is checked
    for the columns the statement writes. *)
Definition upsert_hero_equipment (NEW : hero_equipment_row) (d : database)
    : result database :=
  '(d1, r1) ← fire BEFORE INSERT hero_equipment_triggers d NEW;
  match hero_equipment d1 !! row_key r1 with
  | None =>
      let d2 := put_row r1 d1 in
      _ ← check_hero_fkey d2 r1;
      _ ← check_item_fkey d2 r1;
      '(d3, _) ← fire AFTER INSERT hero_equipment_triggers d2 r1;
      Ok d3
  | Some _ =>
      '(d2, r2) ← fire BEFORE UPDATE hero_equipment_triggers d1 r1;
      let d3 := put_row r2 d2 in
      _ ← check_item_fkey d3 r2;
      '(d4, _) ← fire AFTER UPDATE hero_equipment_triggers d3 r2;
      Ok d4
  end.

(** [DELETE FROM hero_equipment WHERE hero_id = h AND slot = s]: at most one
    row has the key; the row triggers for DELETE fire around its removal. *)
Definition delete_hero_equipment (h : uuid) (s : equipment_slot) (d : database)
    : result database :=
  match hero_equipment d !! (h, s) with
  | None => Ok d
  | Some i =>
      let OLD := mk_hero_equipment_row h i s in
      '(d1, _) ← fire BEFORE DELETE hero_equipment_triggers d OLD;
      let d2 := with_hero_equipment (delete (h, s) (hero_equipment d1)) d1 in
      '(d3, _) ← fire AFTER DELETE hero_equipment_triggers d2 OLD;
      Ok d3
  end.

(** ** The operations of the equipment rules *)

(** Modelled from the spec: the statement behind the equip operation is not
    part of the migrations; section 4.1 gives it as an upsert of the
    [(heroId, slot)] entry, which on this schema is [upsert_hero_equipment]
    with the triggers of the migrations around it. *)
Definition equip (h i : uuid) (s : equipment_slot) (d : database) : result database :=
  upsert_hero_equipment (mk_hero_equipment_row h i s) d.

(** Modelled from the spec: the statement behind the unequip operation is not
    part of the migrations; section 4.1 gives it as the removal of the
    [(heroId, slot)] entry, which on this schema is [delete_hero_equipment]. *)
Definition unequip (h : uuid) (s : equipment_slot) (d : database) : result database :=
  delete_hero_equipment h s d.

(** [getEquipped]: the item in a slot of a hero, if any. *)
Definition get_equipped (d : database) (h : uuid) (s : equipment_slot) : option uuid :=
  hero_equipment d !! (h, s).

(** ** The rules in words, and what the proofs speak about *)

(** The item type that carries the name of a slot. *)
Definition slot_tag (s : equipment_slot) : item_type :=
  match s with
  | Slot.helm => ItemType.helm
  | Slot.weapon => ItemType.weapon
  | Slot.shield => ItemType.shield
  | Slot.armor => ItemType.armor
  | Slot.gloves => ItemType.gloves
  end.

(** The rule in words: the three ways an item fits a slot. *)
Definition fits (item_types : list item_type) (s : equipment_slot) : Prop :=
  slot_tag s ∈ item_types
  ∨ ((s = Slot.weapon ∨ s = Slot.shield) ∧ ItemType.two_handed_weapon ∈ item_types)
  ∨ ((s = Slot.armor ∨ s = Slot.helm) ∧ ItemType.robe ∈ item_types).

(** The pairs of a single item type and a slot that the rule accepts. *)
Definition accepted_pairs : list (item_type * equipment_slot) :=
  [ (ItemType.helm, Slot.helm);
    (ItemType.weapon, Slot.weapon);
    (ItemType.shield, Slot.shield);
    (ItemType.armor, Slot.armor);
    (ItemType.gloves, Slot.gloves);
    (ItemType.two_handed_weapon, Slot.weapon);
    (ItemType.two_handed_weapon, Slot.shield);
    (ItemType.robe, Slot.armor);
    (ItemType.robe, Slot.helm) ].

(** The other one of the weapon and shield slots. *)
Definition other_hand (s : equipment_slot) : equipment_slot :=
  match s with
  | Slot.weapon => Slot.shield
  | _ => Slot.weapon
  end.

(** The [hero_equipment] table a successful equip leaves behind. *)
Definition equipped (two_handed : bool) (h i : uuid) (s : equipment_slot)
    (E : gmap (uuid * equipment_slot) uuid) : gmap (uuid * equipment_slot) uuid :=
  if (s =ANY [Slot.weapon; Slot.shield]) && two_handed
  then delete (h, other_hand s) (<[(h, s) := i]> E)
  else <[(h, s) := i]> E.

(** ** Reachable states *)

(** The states that successful equip and unequip operations lead to from a
    database whose [hero_equipment] table is empty. *)
Inductive reachable : database → Prop :=
  | reachable_empty (d : database) :
      hero_equipment d = ∅ → reachable d
  | reachable_equip (d d' : database) (h i : uuid) (s : equipment_slot) :
      reachable d → equip h i s d = Ok d' → reachable d'
  | reachable_unequip (d d' : database) (h : uuid) (s : equipment_slot) :
      reachable d → unequip h s d = Ok d' → reachable d'.

(** The slot of the hero holds some two-handed weapon. *)
Definition holds_two_handed (d : database) (h : uuid) (s : equipment_slot) : Prop :=
  ∃ i item_types,
    get_equipped d h s = Some i
    ∧ items d !! i = Some item_types
    ∧ ItemType.two_handed_weapon ∈ item_types.

(** The third claim as the specification words it: the other hand is cleared
    for every target slot, also one that is neither weapon nor shield. *)
Definition clears_hands_from_every_slot : Prop :=
  ∀ (d d' : database) (h i : uuid) (s s' : equipment_slot) (item_types : list item_type),
    items d !! i = Some item_types →
    ItemType.two_handed_weapon ∈ item_types →
    equip h i s d = Ok d' →
    s' ∈ [Slot.weapon; Slot.shield] → s' ≠ s →
    get_equipped d' h s' = None.

(** The eighth claim as the specification words it: an item id that the
    catalog does not resolve is reported by an error other than the one for
    a slot mismatch. *)
Definition missing_item_has_own_error : Prop :=
  ∀ (d : database) (h i : uuid) (s : equipment_slot),
    items d !! i = None →
    ∃ e, equip h i s d = Err e
         ∧ e ≠ IncompatibleSlotError
         ∧ commit d (equip h i s d) = d.

(** ** A small catalog and hero for the scenarios *)

Open Scope N_scope.

Definition greatsword : uuid := 10.
Definition buckler : uuid := 11.
Definition horned_helm : uuid := 12.
Definition wizard_robe : uuid := 13.
Definition leather_cap : uuid := 14.
Definition dagger : uuid := 15.

Definition catalog : gmap uuid (list item_type) :=
  list_to_map
    [ (greatsword, [ItemType.two_handed_weapon]);
      (buckler, [ItemType.shield]);
      (horned_helm, [ItemType.two_handed_weapon; ItemType.helm]);
      (wizard_robe, [ItemType.robe]);
      (leather_cap, [ItemType.helm]);
      (dagger, [ItemType.weapon]) ].

Definition alice : uuid := 1.

(** One hero, nothing equipped, two bucklers in the inventory. *)
Definition armory : database :=
  {| heroes := {[ alice ]};
     items := catalog;
     hero_inventory := {[ (alice, buckler) := 2%Z ]};
     hero_equipment := ∅ |}.

(** The same with the buckler in the shield slot. *)
Definition armory_with_buckler : database :=
  with_hero_equipment {[ (alice, Slot.shield) := buckler ]} armory.

(** * The rest of the schema and its callers *)

(** ** More on the equipment tables *)

#[global] Instance result_fmap : FMap result := λ A B f r,
  match r with
  | Ok a => Ok (f a)
  | Err e => Err e
  end.

Definition with_hero_inventory
    (inv : gmap (uuid * uuid) Z) (d : database) : database :=
  {| heroes := heroes d; items := items d;
     hero_inventory := inv; hero_equipment := hero_equipment d |}.

(** Every row of [hero_equipment] passes the CHECK constraint
    [valid_equipment_slot]. *)
Definition rows_valid (d : database) : Prop :=
  ∀ h s i, hero_equipment d !! (h, s) = Some i →
           valid_equipment_slot d (mk_hero_equipment_row h i s) = true.

(** An equip as a transaction of its own: the database afterwards, rolled
    back when the statement raises. *)
Definition run_equip (h i : uuid) (s : equipment_slot) (d : database) : database :=
  commit d (equip h i s d).

(** [DELETE FROM items WHERE id = i].  [hero_inventory.item_id] and
    [hero_equipment.item_id] reference [items(id)] ON DELETE CASCADE, so the
    rows that name the item go with it; no trigger is declared on [items]
    and none fires on the cascaded deletes. *)
Definition delete_item (i : uuid) (d : database) : result database :=
  match items d !! i with
  | None => Ok d
  | Some _ =>
      Ok (delete_from_hero_equipment (λ r, bool_decide (item_id r = i))
            {| heroes := heroes d;
               items := delete i (items d);
               hero_inventory := filter (λ kv, kv.1.2 ≠ i) (hero_inventory d);
               hero_equipment := hero_equipment d |})
  end.

(** The foreign keys of [hero_equipment] and [hero_inventory] hold: every
    row names a hero of [heroes] and an item of [items]. *)
Definition references_ok (d : database) : Prop :=
  (∀ h s i, hero_equipment d !! (h, s) = Some i →
            h ∈ heroes d ∧ is_Some (items d !! i))
  ∧ (∀ h i q, hero_inventory d !! (h, i) = Some q →
              h ∈ heroes d ∧ is_Some (items d !! i)).

(** One successful statement on the equipment tables. *)
Inductive equipment_step (d d' : database) : Prop :=
  | step_equip (h i : uuid) (s : equipment_slot) :
      equip h i s d = Ok d' → equipment_step d d'
  | step_unequip (h : uuid) (s : equipment_slot) :
      unequip h s d = Ok d' → equipment_step d d'
  | step_delete_item (i : uuid) :
      delete_item i d = Ok d' → equipment_step d d'.

(** ** Heroes, realms and quests *)

(** SQL's three-valued logic: a condition is true, false or NULL. *)
Definition sql_bool : Set := option bool.


Definition sql_or (a b : sql_bool) : sql_bool :=
  match a, b with
  | Some true, _ | _, Some true => Some true
  | Some false, Some false => Some false
  | _, _ => None
  end.

(** A comparison with a NULL operand is NULL. *)
Definition sql_cmp {A} (cmp : A → A → bool) (a b : option A) : sql_bool :=
  match a, b with
  | Some x, Some y => Some (cmp x y)
  | _, _ => None
  end.



(** WHERE and IF take a row or a branch only when the condition is true. *)
Definition sql_true (b : sql_bool) : bool :=
  match b with Some true => true | _ => false end.


(** [CREATE TYPE realm_role AS ENUM ('owner', 'admin', 'member')] *)
Inductive realm_role : Set := owner | admin | member.

(** [heroes]: the columns of the first migration besides [id] and the
    timestamps; [is_developer] and [is_paying_customer] are
    [boolean DEFAULT false] and may be NULL. *)
Record heroes_row : Set := mk_heroes_row {
  email : string;
  display_name : string;
  is_developer : option bool;
  is_paying_customer : option bool
}.

(** [realms]: [name text NOT NULL], [created_by uuid REFERENCES heroes(id) NOT NULL] *)
Record realms_row : Set := mk_realms_row {
  name : string;
  created_by : uuid
}.

(** [quest_boards]: [realm_id uuid REFERENCES realms(id) ON DELETE CASCADE],
    [name text NOT NULL] *)
Record quest_boards_row : Set := mk_quest_boards_row {
  realm_id : option uuid;
  board_name : string
}.

(** [quests]: the columns besides [id], [description], [start_date] and the
    timestamps. *)
Record quests_row : Set := mk_quests_row {
  quest_board_id : option uuid;
  title : string;
  difficulty : Z;
  priority : Z;
  recurrence_type : string;
  recurrence_interval : option Z
}.

Record realm_db : Type := mk_realm_db {
  (** [heroes], by [id] *)
  hero_rows : gmap uuid heroes_row;
  (** [realms], by [id] *)
  realms : gmap uuid realms_row;
  (** [realm_members]: [(hero_id, realm_id)] to [role] *)
  realm_members : gmap (uuid * uuid) realm_role;
  (** [quest_boards], by [id] *)
  quest_boards : gmap uuid quest_boards_row;
  (** [quests], by [id] *)
  quests : gmap uuid quests_row
}.

Definition with_realms (r : gmap uuid realms_row) (rd : realm_db) : realm_db :=
  {| hero_rows := hero_rows rd; realms := r;
     realm_members := realm_members rd;
     quest_boards := quest_boards rd; quests := quests rd |}.

Definition with_hero_rows (hs : gmap uuid heroes_row) (rd : realm_db) : realm_db :=
  {| hero_rows := hs; realms := realms rd;
     realm_members := realm_members rd;
     quest_boards := quest_boards rd; quests := quests rd |}.

(** The errors of the statements on these tables: those of the equipment
    statements, and violations of a unique or a CHECK constraint. *)
Inductive schema_error : Set :=
  | equipment_error (e : sql_error)
  | unique_violation (constraint : string)
  | check_violation (relation : string).

Inductive outcome (A : Type) : Type :=
  | Done (a : A)
  | Fail (e : schema_error).
Arguments Done {A} a.
Arguments Fail {A} e.

#[global] Instance outcome_ret : MRet outcome := λ A a, Done a.

#[global] Instance outcome_bind : MBind outcome := λ A B k r,
  match r with
  | Done a => k a
  | Fail e => Fail e
  end.

Definition realm_creator_error : schema_error :=
  equipment_error
    (raise_exception "Realm creator must be a developer or paying customer").

(** [validate_realm_creator()], a BEFORE trigger function on [realms]:
    raises unless [heroes] has a row for [NEW.created_by] with
    [is_developer = true OR is_paying_customer = true]. *)
Definition validate_realm_creator (rd : realm_db) (NEW : realms_row)
    : outcome realms_row :=
  if negb
       match hero_rows rd !! created_by NEW with
       | Some hero =>
           sql_true
             (sql_or (sql_cmp Bool.eqb (is_developer hero) (Some true))
                     (sql_cmp Bool.eqb (is_paying_customer hero) (Some true)))
       | None => false
       end
  then Fail realm_creator_error
  else Done NEW.

(** [created_by uuid REFERENCES heroes(id)] *)
Definition check_created_by_fkey (rd : realm_db) (r : realms_row) : outcome unit :=
  if bool_decide (is_Some (hero_rows rd !! created_by r)) then Done ()
  else Fail (equipment_error (foreign_key_violation "realms_created_by_fkey")).

(** [INSERT INTO realms (id, name, created_by) VALUES (...)]:
    [validate_realm_creator_trigger] fires BEFORE INSERT, then the primary
    key and the foreign key are checked. *)
Definition insert_realm (id : uuid) (NEW : realms_row) (rd : realm_db)
    : outcome realm_db :=
  r ← validate_realm_creator rd NEW;
  if bool_decide (is_Some (realms rd !! id))
  then Fail (unique_violation "realms_pkey")
  else
    _ ← check_created_by_fkey rd r;
    Done (with_realms (<[id := r]> (realms rd)) rd).

(** [UPDATE realms SET ... WHERE id = id], the assignments given as a
    function of the old row: [validate_realm_creator_trigger] fires BEFORE
    UPDATE on the new row whatever columns are assigned
    ([update_realms_updated_at] only stamps the row), then the foreign key
    is checked.  Without a row of that id nothing happens. *)
Definition update_realm (id : uuid) (assign : realms_row → realms_row) (rd : realm_db)
    : outcome realm_db :=
  match realms rd !! id with
  | None => Done rd
  | Some OLD =>
      r ← validate_realm_creator rd (assign OLD);
      _ ← check_created_by_fkey rd r;
      Done (with_realms (<[id := r]> (realms rd)) rd)
  end.

(** [UPDATE heroes SET is_developer = dev, is_paying_customer = pay
     WHERE id = h]: the only trigger on [heroes], [update_heroes_updated_at],
    stamps the row. *)
Definition update_hero_flags (h : uuid) (dev pay : option bool) (rd : realm_db)
    : outcome realm_db :=
  match hero_rows rd !! h with
  | None => Done rd
  | Some OLD =>
      Done (with_hero_rows
              (<[h := {| email := email OLD; display_name := display_name OLD;
                         is_developer := dev; is_paying_customer := pay |}]>
                 (hero_rows rd))
              rd)
  end.

(** The quest sits on a board of the realm. *)
Definition on_board_of (rd : realm_db) (id : uuid) (q : quests_row) : bool :=
  match quest_board_id q with
  | Some b =>
      match quest_boards rd !! b with
      | Some board => bool_decide (realm_id board = Some id)
      | None => false
      end
  | None => false
  end.

(** [DELETE FROM realms WHERE id = id]: [realm_members.realm_id] and
    [quest_boards.realm_id] reference [realms(id)] ON DELETE CASCADE, and
    [quests.quest_board_id] references [quest_boards(id)] ON DELETE CASCADE,
    so the memberships, the boards of the realm and the quests on those
    boards go with it.  No trigger fires on a DELETE. *)
Definition delete_realm (id : uuid) (rd : realm_db) : outcome realm_db :=
  match realms rd !! id with
  | None => Done rd
  | Some _ =>
      Done {| hero_rows := hero_rows rd;
              realms := delete id (realms rd);
              realm_members := filter (λ kv, kv.1.2 ≠ id) (realm_members rd);
              quest_boards :=
                filter (λ kv, realm_id kv.2 ≠ Some id) (quest_boards rd);
              quests :=
                filter (λ kv, on_board_of rd id kv.2 = false) (quests rd) |}
  end.

(** The creator of the realm has a row in [heroes] that is flagged as a
    developer or as a paying customer. *)
Definition qualifies (rd : realm_db) (h : uuid) : Prop :=
  ∃ hero, hero_rows rd !! h = Some hero
          ∧ (is_developer hero = Some true ∨ is_paying_customer hero = Some true).

(** The states that successful inserts, updates and deletes of realms lead
    to from a database without realms; [heroes] is not written. *)
Inductive realms_reachable : realm_db → Prop :=
  | realms_reachable_empty (rd : realm_db) :
      realms rd = ∅ → realms_reachable rd
  | realms_reachable_insert (rd rd' : realm_db) (id : uuid) (r : realms_row) :
      realms_reachable rd → insert_realm id r rd = Done rd' → realms_reachable rd'
  | realms_reachable_update (rd rd' : realm_db) (id : uuid)
        (assign : realms_row → realms_row) :
      realms_reachable rd → update_realm id assign rd = Done rd' → realms_reachable rd'
  | realms_reachable_delete (rd rd' : realm_db) (id : uuid) :
      realms_reachable rd → delete_realm id rd = Done rd' → realms_reachable rd'.

(** The database after a statement, as it was before when the statement
    failed. *)
Definition settled {A} (a : A) (o : outcome A) : A :=
  match o with
  | Done a' => a'
  | Fail _ => a
  end.

(** [DELETE FROM heroes WHERE id = h], on the equipment tables and the realm
    tables together ([heroes d] is the [id] column of the table whose other
    columns [hero_rows] holds).  [realms.created_by] references
    [heroes(id)] without an ON DELETE action, so the statement fails while a
    realm names the hero; [realm_members.hero_id], [hero_inventory.hero_id]
    and [hero_equipment.hero_id] are ON DELETE CASCADE. *)
Definition delete_hero (h : uuid) (st : database * realm_db)
    : outcome (database * realm_db) :=
  match hero_rows st.2 !! h with
  | None => Done st
  | Some _ =>
      if bool_decide (map_Exists (λ _ r, created_by r = h) (realms st.2))
      then Fail (equipment_error (foreign_key_violation "realms_created_by_fkey"))
      else
        Done
          (delete_from_hero_equipment (λ r, bool_decide (hero_id r = h))
             {| heroes := heroes st.1 ∖ {[ h ]};
                items := items st.1;
                hero_inventory := filter (λ kv, kv.1.1 ≠ h) (hero_inventory st.1);
                hero_equipment := hero_equipment st.1 |},
           {| hero_rows := delete h (hero_rows st.2);
              realms := realms st.2;
              realm_members := filter (λ kv, kv.1.1 ≠ h) (realm_members st.2);
              quest_boards := quest_boards st.2;
              quests := quests st.2 |})
  end.

(** The CHECK constraints of [quests]. *)








(** A small guild for the scenarios: Alice has no flag set, Bob pays. *)
Definition bob : uuid := 2.

Definition guild : realm_db :=
  {| hero_rows :=
       {[ alice := {| email := "alice@example.org"; display_name := "Alice";
                      is_developer := Some false; is_paying_customer := None |};
          bob := {| email := "bob@example.org"; display_name := "Bob";
                    is_developer := None; is_paying_customer := Some true |} ]};
     realms := ∅;
     realm_members := ∅;
     quest_boards := ∅;
     quests := ∅ |}.

Definition hearth : realms_row := {| name := "Hearth"; created_by := bob |}.

(** The guild with Bob's realm, Alice a member of it, a board and a quest. *)
Definition guild_with_hearth : realm_db :=
  {| hero_rows := hero_rows guild;
     realms := {[ 100 := hearth ]};
     realm_members := {[ (alice, 100) := member; (bob, 100) := owner ]};
     quest_boards := {[ 200 := {| realm_id := Some 100; board_name := "Kitchen" |} ]};
     quests :=
       {[ 300 := {| quest_board_id := Some 200; title := "Dishes";
                    difficulty := 2; priority := 3;
                    recurrence_type := "daily"; recurrence_interval := None |} ]} |}.

(** [INSERT INTO heroes (id, email, display_name) VALUES (...)], the insert
    of the sign-up route: [is_developer] and [is_paying_customer] take their
    DEFAULT false; the primary key and [email text UNIQUE] are checked. *)
Definition insert_hero_profile (id : uuid) (mail display : string) (rd : realm_db)
    : outcome realm_db :=
  if bool_decide (is_Some (hero_rows rd !! id))
  then Fail (unique_violation "heroes_pkey")
  else if bool_decide (map_Exists (λ _ hero, email hero = mail) (hero_rows rd))
  then Fail (unique_violation "heroes_email_key")
  else
    Done (with_hero_rows
            (<[id := {| email := mail; display_name := display;
                        is_developer := Some false;
                        is_paying_customer := Some false |}]> (hero_rows rd))
            rd).

(** ** The server side of the routes *)

(** [process.env]: a variable is a string or undefined. *)
Record process_env : Set := mk_process_env {
  SUPABASE_URL : option string;
  SUPABASE_ANON_KEY : option string
}.

(** JavaScript's truthiness of a [string | undefined]: undefined and the
    empty string are falsy. *)
Definition truthy (v : option string) : bool :=
  match v with
  | Some s => negb (String.eqb s "")
  | None => false
  end.

(** [a && b]: [a] when [a] is falsy, [b] otherwise. *)
Definition js_and (a b : option string) : option string :=
  if truthy a then b else a.

(** [isSupabaseConfigured]:
    [Boolean(process.env.SUPABASE_URL && process.env.SUPABASE_ANON_KEY)] *)
Definition isSupabaseConfigured (env : process_env) : bool :=
  truthy (js_and (SUPABASE_URL env) (SUPABASE_ANON_KEY env)).

(** What [createClient(url, key, { auth })] is given. *)
Record client : Set := mk_client {
  supabaseUrl : string;
  supabaseKey : string;
  autoRefreshToken : bool;
  persistSession : bool
}.

(** The module variable [supabase], and the number of calls of
    [createClient] so far. *)
Record module_state : Set := mk_module_state {
  supabase : option client;
  createClient_calls : nat
}.

Definition fresh_module : module_state :=
  {| supabase := None; createClient_calls := 0 |}.

(** [getSupabaseClient]: null when not configured; otherwise the client of
    the module variable, created first when the variable is null. *)
Definition getSupabaseClient (env : process_env) (m : module_state)
    : option client * module_state :=
  if negb (isSupabaseConfigured env) then (None, m)
  else
    let m' :=
      match supabase m with
      | None =>
          {| supabase :=
               Some {| supabaseUrl := default "" (SUPABASE_URL env);
                       supabaseKey := default "" (SUPABASE_ANON_KEY env);
                       autoRefreshToken := true;
                       persistSession := true |};
             createClient_calls := S (createClient_calls m) |}
      | Some _ => m
      end in
    (supabase m', m').

(** A run of calls of [getSupabaseClient], one per environment, in order. *)
Fixpoint get_clients (envs : list process_env) (m : module_state)
    : list (option client) * module_state :=
  match envs with
  | [] => ([], m)
  | env :: envs' =>
      let '(c, m1) := getSupabaseClient env m in
      let '(cs, m2) := get_clients envs' m1 in
      (c :: cs, m2)
  end.

(** The responses of the routes: [json(body, { status })], with status 200
    when none is given, and [redirect(url)]. *)
Inductive json_body : Set :=
  | error_body (error : string)
  | success_body.

Inductive response : Set :=
  | json (body : json_body) (status : nat)
  | redirect (url : string).

(** What [supabase.auth.signInWithPassword] comes back with: the promise
    rejects (or resolves to something that cannot be destructured), or it
    resolves to [{ error, data: { session } }], each of the two null or
    not; of an error its message counts, of a session that it is there. *)
Inductive sign_in_reply : Set :=
  | sign_in_rejects
  | sign_in_resolves (error : option string) (session : bool).

(** The [action] of the login route, given the parsed form and the reply of
    the sign-in. *)
Definition login_action (env : process_env) (m : module_state)
    (sign_in : client → option string → option string → sign_in_reply)
    (email_field password_field : option string) : response * module_state :=
  if negb (isSupabaseConfigured env)
  then (json (error_body "Please connect to Supabase using the 'Connect to Supabase' button in the top right corner.") 400, m)
  else
    let '(c, m') := getSupabaseClient env m in
    match c with
    | None => (json (error_body "Database connection not available") 500, m')
    | Some supabase =>
        (match sign_in supabase email_field password_field with
         | sign_in_rejects =>
             json (error_body "An unexpected error occurred. Please try again.") 500
         | sign_in_resolves (Some message) _ => json (error_body message) 400
         | sign_in_resolves None true => redirect "/dashboard"
         | sign_in_resolves None false => json (error_body "Login failed") 400
         end, m')
    end.




(** * Lemmas *)

(** ** The compatibility rule *)

Lemma slot_text_item_type_tag (s : equipment_slot) :
  slot_text_item_type s = Some (slot_tag s).
Proof. by destruct s. Qed.

Lemma eq_any_true {A} `{EqDecision A} (x : A) (arr : list A) :
  (x =ANY arr) = true ↔ x ∈ arr.
Proof. unfold eq_any. apply bool_decide_eq_true. Qed.

Lemma eq_any_false {A} `{EqDecision A} (x : A) (arr : list A) :
  (x =ANY arr) = false ↔ x ∉ arr.
Proof. unfold eq_any. apply bool_decide_eq_false. Qed.

Lemma in_hands (s : equipment_slot) :
  s ∈ [Slot.weapon; Slot.shield] ↔ s = Slot.weapon ∨ s = Slot.shield.
Proof. rewrite !elem_of_cons, elem_of_nil. tauto. Qed.

Lemma in_robe_slots (s : equipment_slot) :
  s ∈ [Slot.armor; Slot.helm] ↔ s = Slot.armor ∨ s = Slot.helm.
Proof. rewrite !elem_of_cons, elem_of_nil. tauto. Qed.

Lemma can_equip_fits (item_types : list item_type) (s : equipment_slot) :
  can_equip item_types s = true ↔ fits item_types s.
Proof.
  unfold can_equip, fits. rewrite slot_text_item_type_tag.
  rewrite !orb_true_iff, !andb_true_iff, !eq_any_true, in_hands, in_robe_slots.
  tauto.
Qed.

Lemma exists_item_true (d : database) (i : uuid) (cond : list item_type → bool) :
  exists_item d i cond = true ↔
  ∃ item_types, items d !! i = Some item_types ∧ cond item_types = true.
Proof.
  unfold exists_item. destruct (items d !! i) as [tys|]; split.
  - eauto.
  - by intros (? & [= <-] & ?).
  - done.
  - by intros (? & ? & ?).
Qed.

(** ** What the triggers amount to for each statement *)

(** Evaluates the closed guards of a trigger list. *)
Ltac decide_guards :=
  repeat match goal with
  | |- context [bool_decide ?P] =>
      let b := eval vm_compute in (bool_decide P) in
      match b with
      | true => change (bool_decide P) with true
      | false => change (bool_decide P) with false
      end
  | |- context [?x =ANY ?l] =>
      let b := eval vm_compute in (x =ANY l) in
      match b with
      | true => change (x =ANY l) with true
      | false => change (x =ANY l) with false
      end
  end;
  cbn [andb orb negb].

Lemma bind_pair_id {A B} (r : result (A * B)) :
  ('(a, b) ← r; Ok (a, b)) = r.
Proof. by destruct r as [[]|]. Qed.

Lemma fire_before_write (ev : trigger_event) (d : database) (r : hero_equipment_row) :
  ev ≠ DELETE →
  fire BEFORE ev hero_equipment_triggers d r = validate_equipment_slot d r.
Proof.
  intros Hev. destruct ev; [| |done]; cbn; decide_guards; apply bind_pair_id.
Qed.

Lemma fire_after_write (ev : trigger_event) (d : database) (r : hero_equipment_row) :
  ev ≠ DELETE →
  fire AFTER ev hero_equipment_triggers d r =
  if slot r =ANY [Slot.weapon; Slot.shield]
  then check_two_handed_weapon d r
  else Ok (d, r).
Proof.
  intros Hev. destruct ev; [| |done]; cbn; decide_guards;
    (destruct (slot r =ANY _); [apply bind_pair_id|done]).
Qed.

Lemma fire_delete (tm : trigger_timing) (d : database) (r : hero_equipment_row) :
  fire tm DELETE hero_equipment_triggers d r = Ok (d, r).
Proof. destruct tm; cbn; decide_guards; done. Qed.

Lemma other_hand_of_true (NEW r : hero_equipment_row) :
  other_hand_of NEW r = true ↔
  hero_id r = hero_id NEW
  ∧ (slot r = Slot.weapon ∨ slot r = Slot.shield)
  ∧ slot r ≠ slot NEW.
Proof.
  unfold other_hand_of.
  rewrite !andb_true_iff, negb_true_iff, bool_decide_eq_true,
    bool_decide_eq_false, eq_any_true, in_hands.
  tauto.
Qed.

(** Written from the weapon or the shield slot, the DELETE removes exactly
    the row of the other hand. *)
Lemma delete_other_hand (NEW : hero_equipment_row) (d : database) :
  slot NEW ∈ [Slot.weapon; Slot.shield] →
  delete_from_hero_equipment (other_hand_of NEW) d
  = with_hero_equipment
      (delete (hero_id NEW, other_hand (slot NEW)) (hero_equipment d)) d.
Proof.
  intros Hs%in_hands. unfold delete_from_hero_equipment. f_equal.
  apply map_eq. intros [h s]. apply option_eq. intros i.
  rewrite map_lookup_filter_Some, lookup_delete_Some. cbn.
  rewrite <- not_true_iff_false, other_hand_of_true. cbn.
  split.
  - intros [Hl Hc]. split; [|done]. intros [= <- <-]. apply Hc.
    destruct Hs as [-> | ->]; cbn; split_and!; auto; done.
  - intros [Hne Hl]. split; [done|]. intros (-> & Hs' & Hd). apply Hne.
    f_equal. destruct Hs as [E | E], Hs' as [-> | ->]; rewrite E in *; done.
Qed.

Lemma after_write (ev : trigger_event) (d : database) (h i : uuid)
    (s : equipment_slot) (item_types : list item_type) :
  ev ≠ DELETE →
  items d !! i = Some item_types →
  fire AFTER ev hero_equipment_triggers
       (put_row (mk_hero_equipment_row h i s) d) (mk_hero_equipment_row h i s)
  = Ok (with_hero_equipment
          (equipped (ItemType.two_handed_weapon =ANY item_types) h i s (hero_equipment d)) d,
        mk_hero_equipment_row h i s).
Proof.
  intros Hev Hi. rewrite fire_after_write by done. unfold equipped. cbn [slot].
  destruct (s =ANY _) eqn:Hs; cbn [andb].
  - unfold check_two_handed_weapon, exists_item. cbn [item_id put_row items with_hero_equipment].
    rewrite Hi. destruct (_ =ANY item_types); [|done].
    rewrite delete_other_hand by (by apply eq_any_true in Hs). done.
  - done.
Qed.

Lemma equip_eq (h i : uuid) (s : equipment_slot) (d : database) :
  equip h i s d =
  match items d !! i with
  | None => Err IncompatibleSlotError
  | Some item_types =>
      if can_equip item_types s then
        if bool_decide (is_Some (hero_equipment d !! (h, s)) ∨ h ∈ heroes d)
        then Ok (with_hero_equipment
                   (equipped (ItemType.two_handed_weapon =ANY item_types) h i s
                             (hero_equipment d)) d)
        else Err (foreign_key_violation "hero_equipment_hero_id_fkey")
      else Err IncompatibleSlotError
  end.
Proof.
  unfold equip, upsert_hero_equipment.
  rewrite fire_before_write by done.
  unfold validate_equipment_slot, exists_item. cbn [item_id slot].
  destruct (items d !! i) as [tys|] eqn:Hi; [|done].
  destruct (can_equip tys s) eqn:Hc; [|done].
  cbn -[fire]. unfold row_key. cbn [hero_id slot].
  destruct (hero_equipment d !! (h, s)) as [j|] eqn:Hj.
  - rewrite bool_decide_true by (left; eauto).
    rewrite fire_before_write by done.
    unfold validate_equipment_slot, exists_item. cbn [item_id slot].
    rewrite Hi, Hc. cbn -[fire].
    unfold check_item_fkey. cbn [item_id put_row items with_hero_equipment].
    rewrite bool_decide_true by (rewrite Hi; eauto). cbn -[fire].
    by rewrite (after_write UPDATE d h i s tys).
  - unfold check_hero_fkey, check_item_fkey.
    cbn [hero_id item_id put_row heroes items with_hero_equipment].
    destruct (decide (h ∈ heroes d)) as [Hh|Hh].
    + rewrite !bool_decide_true by (try rewrite Hi; eauto). cbn -[fire].
      by rewrite (after_write INSERT d h i s tys).
    + rewrite (bool_decide_false (h ∈ heroes d)) by done.
      rewrite (bool_decide_false (_ ∨ _)) by (intros [?%is_Some_None|?]; done).
      done.
Qed.

Lemma unequip_eq (h : uuid) (s : equipment_slot) (d : database) :
  unequip h s d
  = Ok (with_hero_equipment (delete (h, s) (hero_equipment d)) d).
Proof.
  unfold unequip, delete_hero_equipment.
  destruct (hero_equipment d !! (h, s)) as [i|] eqn:Hi.
  - rewrite fire_delete. cbn -[fire]. by rewrite fire_delete.
  - rewrite delete_id by done. by destruct d.
Qed.

(** ** Lookups in the table a successful equip leaves *)

Lemma other_hand_ne (s : equipment_slot) : other_hand s ≠ s.
Proof. by destruct s. Qed.

Section equipped_table.
Context (h i : uuid) (s : equipment_slot) (E : gmap (uuid * equipment_slot) uuid).

Lemma equipped_lookup_eq (b : bool) : equipped b h i s E !! (h, s) = Some i.
Proof.
  unfold equipped. destruct (_ && _).
  - rewrite lookup_delete_ne, lookup_insert_eq; [done|].
    intros [= Hs]. by apply other_hand_ne in Hs.
  - apply lookup_insert_eq.
Qed.

Lemma equipped_one_handed : equipped false h i s E = <[(h, s) := i]> E.
Proof. unfold equipped. by rewrite andb_false_r. Qed.

Lemma equipped_other_slot (b : bool) :
  s ∉ [Slot.weapon; Slot.shield] →
  equipped b h i s E = <[(h, s) := i]> E.
Proof. intros Hs%eq_any_false. unfold equipped. by rewrite Hs. Qed.

Lemma equipped_lookup_other_hand :
  s ∈ [Slot.weapon; Slot.shield] →
  equipped true h i s E !! (h, other_hand s) = None.
Proof.
  intros Hs%eq_any_true. unfold equipped. rewrite Hs. cbn.
  apply lookup_delete_eq.
Qed.

Lemma equipped_lookup_other_hero (b : bool) (h' : uuid) (s' : equipment_slot) :
  h' ≠ h →
  equipped b h i s E !! (h', s') = E !! (h', s').
Proof.
  intros Hh. unfold equipped. destruct (_ && _).
  - rewrite lookup_delete_ne, lookup_insert_ne; congruence.
  - rewrite lookup_insert_ne; congruence.
Qed.

Lemma equipped_idemp (b : bool) :
  equipped b h i s (equipped b h i s E) = equipped b h i s E.
Proof.
  unfold equipped. destruct (_ && _).
  - rewrite <- delete_insert_ne
      by (intros [= Hs]; by apply other_hand_ne in Hs).
    by rewrite insert_insert_eq, delete_delete_eq.
  - apply insert_insert_eq.
Qed.

End equipped_table.

Lemma equip_Ok_inv (d d' : database) (h i : uuid) (s : equipment_slot) :
  equip h i s d = Ok d' →
  ∃ item_types,
    items d !! i = Some item_types
    ∧ can_equip item_types s = true
    ∧ d' = with_hero_equipment
             (equipped (ItemType.two_handed_weapon =ANY item_types) h i s
                       (hero_equipment d)) d.
Proof.
  rewrite equip_eq. destruct (items d !! i) as [tys|]; [|done].
  destruct (can_equip tys s) eqn:Hc; [|done].
  case_bool_decide; [|done]. intros [= <-]. by exists tys.
Qed.

(** No hero wields two-handed weapons in both hands: each write into a hand
    either clears the other hand or puts a one-handed item into its own. *)
Lemma hands_invariant (d : database) :
  reachable d →
  ∀ h, ¬ (holds_two_handed d h Slot.weapon ∧ holds_two_handed d h Slot.shield).
Proof.
  induction 1 as [d He | d d' h i s _ IH Heq | d d' h s _ IH Heq]; intros h'.
  - intros [(j & tys & Hj & _) _]. unfold get_equipped in Hj.
    by rewrite He, lookup_empty in Hj.
  - apply equip_Ok_inv in Heq as (tys & Hi & _ & ->).
    unfold holds_two_handed, get_equipped. cbn.
    destruct (decide (h' = h)) as [-> | Hh].
    + destruct (decide (s ∈ [Slot.weapon; Slot.shield])) as [Hs | Hs].
      * destruct (ItemType.two_handed_weapon =ANY tys) eqn:E2.
        -- pose proof (equipped_lookup_other_hand h i s (hero_equipment d) Hs) as Ho.
           apply in_hands in Hs.
           intros [(j1 & ? & H1 & _) (j2 & ? & H2 & _)].
           destruct Hs as [-> | ->]; cbn in Ho; congruence.
        -- pose proof (equipped_lookup_eq h i s (hero_equipment d) false) as Ho.
           apply in_hands in Hs. apply eq_any_false in E2.
           intros [(j1 & t1 & H1 & Ht1 & Hm1) (j2 & t2 & H2 & Ht2 & Hm2)].
           destruct Hs as [-> | ->]; simplify_eq; done.
      * rewrite equipped_other_slot by done.
        rewrite !lookup_insert_ne
          by (intros [= ?]; subst s; apply Hs; rewrite in_hands; auto).
        apply IH.
    + rewrite !equipped_lookup_other_hero by done. apply IH.
  - rewrite unequip_eq in Heq. injection Heq as <-.
    unfold holds_two_handed, get_equipped. cbn.
    intros [(j1 & t1 & H1 & Ht1 & Hm1) (j2 & t2 & H2 & Ht2 & Hm2)].
    apply lookup_delete_Some in H1 as [_ H1], H2 as [_ H2].
    apply (IH h'). split; [exists j1, t1 | exists j2, t2]; done.
Qed.

(** * The claims *)

(** C1. An item can be equipped in a slot exactly when the slot's own tag is
    among its item types, or the slot is weapon or shield and the item is a
    two-handed weapon, or the slot is armor or helm and the item is a robe;
    over the seven single tags and the five slots that leaves the nine pairs
    of [accepted_pairs].  The trigger function [validate_equipment_slot] lets
    a row through exactly when its item exists and fits its slot in this
    sense, and raises otherwise; the CHECK constraint [valid_equipment_slot]
    of the other revision decides the same.  A robe alone fits armor and
    does not fit weapon: equipping it as armor succeeds, equipping it as a
    weapon raises. *)
Theorem C1_can_equip_rule :
  (∀ (item_types : list item_type) (s : equipment_slot),
      can_equip item_types s = true ↔ fits item_types s)
  ∧ (∀ (t : item_type) (s : equipment_slot),
      can_equip [t] s = bool_decide ((t, s) ∈ accepted_pairs))
  ∧ (∀ (d : database) (r : hero_equipment_row),
      (validate_equipment_slot d r = Ok (d, r) ↔
         ∃ item_types, items d !! item_id r = Some item_types
                       ∧ fits item_types (slot r))
      ∧ (validate_equipment_slot d r = Ok (d, r)
         ∨ validate_equipment_slot d r = Err IncompatibleSlotError)
      ∧ (valid_equipment_slot d r = true ↔ validate_equipment_slot d r = Ok (d, r)))
  ∧ can_equip [ItemType.robe] Slot.armor = true
  ∧ can_equip [ItemType.robe] Slot.weapon = false
  ∧ (∃ d', equip alice wizard_robe Slot.armor armory = Ok d'
           ∧ get_equipped d' alice Slot.armor = Some wizard_robe)
  ∧ equip alice wizard_robe Slot.weapon armory = Err IncompatibleSlotError.
Proof.
  split; [exact can_equip_fits|].
  split; [by intros [] []|].
  split; [|split_and!; [done | done | by eexists | done]].
  intros d r. unfold validate_equipment_slot, valid_equipment_slot.
  destruct (exists_item d (item_id r) _) eqn:E; simpl.
  - apply exists_item_true in E as (tys & Hi & Hc).
    apply can_equip_fits in Hc. split_and!; [|by left|done].
    split; [eauto|done].
  - split_and!; [|by right|done].
    split; [done|]. intros (tys & Hi & Hc).
    apply can_equip_fits in Hc.
    assert (exists_item d (item_id r) (λ tys, can_equip tys (slot r)) = true)
      by (apply exists_item_true; eauto).
    congruence.
Qed.

(** C2. When a two-handed weapon is equipped into the weapon slot the shield
    slot of the hero is empty afterwards, whatever it held, and when it is
    equipped into the shield slot the weapon slot is empty afterwards; the
    written slot holds the item. *)
Theorem C2_two_handed_clears_other_hand
    (d d' : database) (h i : uuid) (s : equipment_slot) (item_types : list item_type) :
  items d !! i = Some item_types →
  ItemType.two_handed_weapon ∈ item_types →
  s ∈ [Slot.weapon; Slot.shield] →
  equip h i s d = Ok d' →
  get_equipped d' h (other_hand s) = None ∧ get_equipped d' h s = Some i.
Proof.
  intros Hi H2 Hs. rewrite equip_eq, Hi.
  destruct (can_equip item_types s); [|done].
  case_bool_decide; [|done]. intros [= <-].
  apply eq_any_true in H2. rewrite H2. unfold get_equipped. cbn.
  split; [by apply equipped_lookup_other_hand | apply equipped_lookup_eq].
Qed.

Lemma C2_scenario_buckler_cleared :
  get_equipped armory_with_buckler alice Slot.shield = Some buckler
  ∧ get_equipped (commit armory_with_buckler
                    (equip alice greatsword Slot.weapon armory_with_buckler))
                 alice Slot.shield = None
  ∧ get_equipped (commit armory_with_buckler
                    (equip alice greatsword Slot.weapon armory_with_buckler))
                 alice Slot.weapon = Some greatsword.
Proof.
  split; [vm_compute; reflexivity|].
  apply (C2_two_handed_clears_other_hand armory_with_buckler _ alice greatsword
           Slot.weapon [ItemType.two_handed_weapon]).
  - vm_compute; reflexivity.
  - apply list_elem_of_here.
  - apply list_elem_of_here.
  - vm_compute; reflexivity.
Defined.

(** C3, as stated, fails: a helm that is also a two-handed weapon goes into
    the helm slot and the buckler stays in the shield slot. *)
Lemma C3_helm_slot_keeps_shield : ¬ clears_hands_from_every_slot.
Proof.
  intros H.
  specialize (H armory_with_buckler
                (commit armory_with_buckler
                   (equip alice horned_helm Slot.helm armory_with_buckler))
                alice horned_helm Slot.helm Slot.shield
                [ItemType.two_handed_weapon; ItemType.helm]).
  assert (Some buckler = None) as [=].
  rewrite <- H; [by vm_compute| by vm_compute | apply list_elem_of_here
                 | by vm_compute | | done].
  apply list_elem_of_further, list_elem_of_here.
Qed.

(** C3, amended. After a successful equip of a two-handed weapon into the
    weapon or the shield slot, the other one of the two slots is empty; after
    a successful equip into any other slot, the weapon and shield slots of
    the hero hold what they held before. *)
Theorem C3_two_handed_clears_only_from_hands
    (d d' : database) (h i : uuid) (s s' : equipment_slot) (item_types : list item_type) :
  items d !! i = Some item_types →
  ItemType.two_handed_weapon ∈ item_types →
  equip h i s d = Ok d' →
  s' ∈ [Slot.weapon; Slot.shield] → s' ≠ s →
  get_equipped d' h s' =
    if s =ANY [Slot.weapon; Slot.shield] then None else get_equipped d h s'.
Proof.
  intros Hi H2. rewrite equip_eq, Hi.
  destruct (can_equip item_types s); [|done].
  case_bool_decide; [|done]. intros [= <-] Hs' Hne.
  apply eq_any_true in H2. rewrite H2. unfold get_equipped. cbn.
  destruct (s =ANY _) eqn:Hs.
  - apply eq_any_true in Hs.
    replace s' with (other_hand s); [by apply equipped_lookup_other_hand|].
    apply in_hands in Hs, Hs'. destruct Hs as [-> | ->], Hs' as [-> | ->]; done.
  - apply eq_any_false in Hs. rewrite equipped_other_slot by done.
    apply lookup_insert_ne. congruence.
Qed.

Lemma C3_scenario_horned_helm :
  get_equipped (commit armory_with_buckler
                  (equip alice horned_helm Slot.helm armory_with_buckler))
               alice Slot.shield
  = if Slot.helm =ANY [Slot.weapon; Slot.shield] then None
    else get_equipped armory_with_buckler alice Slot.shield.
Proof.
  apply (C3_two_handed_clears_only_from_hands armory_with_buckler _ alice
           horned_helm Slot.helm Slot.shield
           [ItemType.two_handed_weapon; ItemType.helm]).
  - vm_compute; reflexivity.
  - apply list_elem_of_here.
  - vm_compute; reflexivity.
  - apply list_elem_of_further, list_elem_of_here.
  - discriminate.
Defined.

(** C4. When the item does not fit the slot, equip raises the exception of
    [validate_equipment_slot] and the database is left as it was. *)
Theorem C4_mismatch_rejected
    (d : database) (h i : uuid) (s : equipment_slot) (item_types : list item_type) :
  items d !! i = Some item_types →
  can_equip item_types s = false →
  equip h i s d = Err IncompatibleSlotError
  ∧ commit d (equip h i s d) = d.
Proof.
  intros Hi Hc. rewrite equip_eq, Hi, Hc. done.
Qed.

Lemma C4_scenario_cap_as_weapon :
  equip alice leather_cap Slot.weapon armory_with_buckler = Err IncompatibleSlotError
  ∧ commit armory_with_buckler
      (equip alice leather_cap Slot.weapon armory_with_buckler)
    = armory_with_buckler.
Proof.
  apply (C4_mismatch_rejected armory_with_buckler alice leather_cap Slot.weapon
           [ItemType.helm]).
  - vm_compute; reflexivity.
  - vm_compute; reflexivity.
Defined.

(** C5. In every state reached from an empty equipment table by successful
    equip and unequip operations, no two-handed weapon sits in the weapon
    slot and in the shield slot of a hero at once. *)
Theorem C5_never_in_both_hands
    (d : database) (h i : uuid) (item_types : list item_type) :
  reachable d →
  items d !! i = Some item_types →
  ItemType.two_handed_weapon ∈ item_types →
  ¬ (get_equipped d h Slot.weapon = Some i ∧ get_equipped d h Slot.shield = Some i).
Proof.
  intros Hr Hi H2 [Hw Hs]. apply (hands_invariant d Hr h).
  split; exists i, item_types; done.
Qed.

Lemma C5_scenario_sword_moves_hands :
  ¬ (get_equipped
       (commit armory_with_buckler
          (equip alice greatsword Slot.weapon armory_with_buckler))
       alice Slot.weapon = Some greatsword
     ∧ get_equipped
         (commit armory_with_buckler
            (equip alice greatsword Slot.weapon armory_with_buckler))
         alice Slot.shield = Some greatsword).
Proof.
  apply (C5_never_in_both_hands _ alice greatsword [ItemType.two_handed_weapon]).
  - apply (reachable_equip armory_with_buckler _ alice greatsword Slot.weapon).
    + apply (reachable_equip armory _ alice buckler Slot.shield).
      * apply reachable_empty. reflexivity.
      * vm_compute; reflexivity.
    + vm_compute; reflexivity.
  - vm_compute; reflexivity.
  - apply list_elem_of_here.
Defined.

(** C6. For a hero in [heroes] and an item that fits the slot, equip
    succeeds, and a second equip of the same item into the same slot right
    after it succeeds too and ends in the database the first one produced. *)
Theorem C6_equip_twice
    (d : database) (h i : uuid) (s : equipment_slot) (item_types : list item_type) :
  h ∈ heroes d →
  items d !! i = Some item_types →
  can_equip item_types s = true →
  ∃ d1, equip h i s d = Ok d1 ∧ equip h i s d1 = Ok d1.
Proof.
  intros Hh Hi Hc. eexists. split.
  { rewrite equip_eq, Hi, Hc. rewrite bool_decide_true by auto. done. }
  rewrite equip_eq. cbn [items heroes hero_equipment with_hero_equipment].
  rewrite Hi, Hc, bool_decide_true by auto.
  by rewrite equipped_idemp.
Qed.

Lemma C6_scenario_greatsword_twice :
  ∃ d1, equip alice greatsword Slot.weapon armory_with_buckler = Ok d1
        ∧ equip alice greatsword Slot.weapon d1 = Ok d1.
Proof.
  apply (C6_equip_twice armory_with_buckler alice greatsword Slot.weapon
           [ItemType.two_handed_weapon]).
  - vm_compute; reflexivity.
  - vm_compute; reflexivity.
  - vm_compute; reflexivity.
Defined.

(** C7. Unequip always succeeds; afterwards the slot is empty, every other
    slot of every hero holds what it held before, the other tables are as
    they were, and when the slot was empty already nothing changes at all. *)
Theorem C7_unequip (d : database) (h : uuid) (s : equipment_slot) :
  ∃ d', unequip h s d = Ok d'
        ∧ get_equipped d' h s = None
        ∧ (∀ h' s', (h', s') ≠ (h, s) →
             get_equipped d' h' s' = get_equipped d h' s')
        ∧ (get_equipped d h s = None → d' = d)
        ∧ heroes d' = heroes d ∧ items d' = items d
        ∧ hero_inventory d' = hero_inventory d.
Proof.
  eexists. split; [apply unequip_eq|]. unfold get_equipped. cbn.
  split_and!; try done.
  - apply lookup_delete_eq.
  - intros h' s' Hne. by apply lookup_delete_ne.
  - intros Hn. rewrite delete_id by done. by destruct d.
Qed.

(** C8, as stated, fails: for an id that is not in [items] the trigger
    function raises the very exception it raises for a slot mismatch. *)
Lemma C8_missing_item_same_error : ¬ missing_item_has_own_error.
Proof.
  intros H. destruct (H armory alice 99 Slot.weapon) as (e & He & Hne & _).
  - vm_compute; reflexivity.
  - apply Hne. vm_compute in He. injection He as <-. reflexivity.
Qed.

(** C8, amended. When the item id is not in [items], equip raises the
    exception of [validate_equipment_slot], the same as for an item that does
    not fit the slot, and the database is left as it was. *)
Theorem C8_missing_item_rejected
    (d : database) (h i : uuid) (s : equipment_slot) :
  items d !! i = None →
  equip h i s d = Err IncompatibleSlotError
  ∧ commit d (equip h i s d) = d.
Proof. intros Hi. rewrite equip_eq, Hi. done. Qed.

Lemma C8_scenario_unknown_item :
  equip alice 99 Slot.weapon armory_with_buckler = Err IncompatibleSlotError
  ∧ commit armory_with_buckler (equip alice 99 Slot.weapon armory_with_buckler)
    = armory_with_buckler.
Proof.
  apply (C8_missing_item_rejected armory_with_buckler alice 99 Slot.weapon).
  vm_compute; reflexivity.
Defined.

(** C9. Neither equip, whether it succeeds or raises, nor unequip changes
    the [hero_inventory] table. *)
Theorem C9_inventory_untouched (d : database) (h i : uuid) (s : equipment_slot) :
  hero_inventory (commit d (equip h i s d)) = hero_inventory d
  ∧ hero_inventory (commit d (unequip h s d)) = hero_inventory d.
Proof.
  split.
  - rewrite equip_eq. destruct (items d !! i) as [tys|]; [|done].
    destruct (can_equip tys s); [|done]. by case_bool_decide.
  - by rewrite unequip_eq.
Qed.

(** C10. A successful equip of an item that is not a two-handed weapon into
    the weapon or the shield slot puts the item into that slot and leaves
    every other slot of every hero, and the other tables, as they were. *)
Theorem C10_one_handed_frame
    (d d' : database) (h i : uuid) (s : equipment_slot) (item_types : list item_type) :
  items d !! i = Some item_types →
  ItemType.two_handed_weapon ∉ item_types →
  s ∈ [Slot.weapon; Slot.shield] →
  equip h i s d = Ok d' →
  get_equipped d' h s = Some i
  ∧ get_equipped d' h (other_hand s) = get_equipped d h (other_hand s)
  ∧ (∀ h' s', (h', s') ≠ (h, s) →
       get_equipped d' h' s' = get_equipped d h' s')
  ∧ heroes d' = heroes d ∧ items d' = items d
  ∧ hero_inventory d' = hero_inventory d.
Proof.
  intros Hi H2%eq_any_false Hs. rewrite equip_eq, Hi.
  destruct (can_equip item_types s); [|done].
  case_bool_decide; [|done]. intros [= <-].
  rewrite H2, equipped_one_handed. unfold get_equipped. cbn.
  split_and!; try done.
  - apply lookup_insert_eq.
  - apply lookup_insert_ne. intros [= Hne]. symmetry in Hne.
    by apply other_hand_ne in Hne.
  - intros h' s' Hne. by apply lookup_insert_ne.
Qed.

Lemma C10_scenario_dagger_beside_buckler :
  let d' := commit armory_with_buckler
              (equip alice dagger Slot.weapon armory_with_buckler) in
  get_equipped d' alice Slot.weapon = Some dagger
  ∧ get_equipped d' alice Slot.shield = Some buckler.
Proof.
  destruct (C10_one_handed_frame armory_with_buckler
              (commit armory_with_buckler
                 (equip alice dagger Slot.weapon armory_with_buckler))
              alice dagger Slot.weapon [ItemType.weapon])
    as (Hw & Hs & _).
  - vm_compute; reflexivity.
  - rewrite list_elem_of_singleton. discriminate.
  - apply list_elem_of_here.
  - vm_compute; reflexivity.
  - split; [exact Hw | exact Hs].
Defined.

(** * Further properties *)

(** ** Equipment *)

Lemma equipped_lookup_Some (b : bool) (h i : uuid) (s : equipment_slot)
    (E : gmap (uuid * equipment_slot) uuid) (k : uuid * equipment_slot) (j : uuid) :
  equipped b h i s E !! k = Some j →
  (k = (h, s) ∧ j = i) ∨ E !! k = Some j.
Proof.
  unfold equipped. destruct (_ && _).
  - intros [_ H]%lookup_delete_Some.
    apply lookup_insert_Some in H as [[<- <-] | [_ H]]; auto.
  - intros H. apply lookup_insert_Some in H as [[<- <-] | [_ H]]; auto.
Qed.

(** X1. In every state reached from an empty equipment table by successful
    equip and unequip operations, every row of [hero_equipment] passes the
    CHECK constraint [valid_equipment_slot]: the trigger keeps what the
    constraint of the other revision demands. *)
Theorem X1_rows_stay_valid (d : database) :
  reachable d → rows_valid d.
Proof.
  induction 1 as [d He | d d' h i s _ IH Heq | d d' h s _ IH Heq];
    intros h' s' j Hj.
  - by rewrite He, lookup_empty in Hj.
  - apply equip_Ok_inv in Heq as (tys & Hi & Hc & ->). cbn in Hj.
    unfold valid_equipment_slot, exists_item. cbn.
    apply equipped_lookup_Some in Hj as [[[= -> ->] ->] | Hj].
    + by rewrite Hi.
    + apply (IH h' s' j Hj).
  - rewrite unequip_eq in Heq. injection Heq as <-. cbn in Hj.
    apply lookup_delete_Some in Hj as [_ Hj]. apply (IH h' s' j Hj).
Qed.

Lemma X1_scenario_after_two_equips :
  rows_valid (run_equip alice greatsword Slot.weapon
                (run_equip alice buckler Slot.shield armory)).
Proof.
  apply X1_rows_stay_valid.
  apply (reachable_equip (run_equip alice buckler Slot.shield armory) _
           alice greatsword Slot.weapon).
  - apply (reachable_equip armory _ alice buckler Slot.shield).
    + apply reachable_empty. reflexivity.
    + vm_compute; reflexivity.
  - vm_compute; reflexivity.
Defined.

Lemma equipped_lookup_frame (b : bool) (h i : uuid) (s : equipment_slot)
    (E : gmap (uuid * equipment_slot) uuid) (k : uuid * equipment_slot) :
  k ≠ (h, s) →
  (s ∈ [Slot.weapon; Slot.shield] → b = true → k ≠ (h, other_hand s)) →
  equipped b h i s E !! k = E !! k.
Proof.
  intros Hk Ho. unfold equipped.
  destruct (s =ANY _) eqn:Hs; destruct b; cbn [andb];
    rewrite ?lookup_delete_ne, ?lookup_insert_ne; try done.
  apply eq_any_true in Hs. intros <-. by apply Ho.
Qed.

(** X2. A successful equip changes the written slot and, when a two-handed
    weapon goes into the weapon or the shield slot, the other hand of the
    same hero; every other slot of every hero and the tables [heroes],
    [items] and [hero_inventory] are as before. *)
Theorem X2_equip_frame
    (d d' : database) (h i : uuid) (s : equipment_slot)
    (h' : uuid) (s' : equipment_slot) :
  equip h i s d = Ok d' →
  (h', s') ≠ (h, s) →
  (s ∈ [Slot.weapon; Slot.shield] → (h', s') ≠ (h, other_hand s)) →
  get_equipped d' h' s' = get_equipped d h' s'
  ∧ heroes d' = heroes d ∧ items d' = items d
  ∧ hero_inventory d' = hero_inventory d.
Proof.
  intros (tys & Hi & Hc & ->)%equip_Ok_inv Hk Ho. unfold get_equipped. cbn.
  split; [|done]. apply equipped_lookup_frame; auto.
Qed.

Lemma X2_scenario_sword_leaves_helm_slot :
  get_equipped (run_equip alice greatsword Slot.weapon armory_with_buckler)
               alice Slot.helm
  = get_equipped armory_with_buckler alice Slot.helm
  ∧ heroes (run_equip alice greatsword Slot.weapon armory_with_buckler)
    = heroes armory_with_buckler
  ∧ items (run_equip alice greatsword Slot.weapon armory_with_buckler)
    = items armory_with_buckler
  ∧ hero_inventory (run_equip alice greatsword Slot.weapon armory_with_buckler)
    = hero_inventory armory_with_buckler.
Proof.
  apply (X2_equip_frame armory_with_buckler _ alice greatsword Slot.weapon
           alice Slot.helm).
  - vm_compute; reflexivity.
  - discriminate.
  - intros _. discriminate.
Defined.

(** X3. Equipping a fitting item into an empty slot of a hero id that is not
    in [heroes] fails on the foreign key of [hero_id] and changes nothing;
    when the item does not fit either, the exception of the BEFORE trigger
    comes first. *)
Theorem X3_unknown_hero
    (d : database) (h i : uuid) (s : equipment_slot) (item_types : list item_type) :
  h ∉ heroes d →
  get_equipped d h s = None →
  items d !! i = Some item_types →
  equip h i s d =
    (if can_equip item_types s
     then Err (foreign_key_violation "hero_equipment_hero_id_fkey")
     else Err IncompatibleSlotError)
  ∧ commit d (equip h i s d) = d.
Proof.
  unfold get_equipped. intros Hh Hn Hi. rewrite equip_eq, Hi, Hn.
  rewrite bool_decide_false by (intros [?%is_Some_None|?]; done).
  by destruct (can_equip item_types s).
Qed.

Lemma X3_scenario_stranger :
  equip 2 dagger Slot.weapon armory =
    (if can_equip [ItemType.weapon] Slot.weapon
     then Err (foreign_key_violation "hero_equipment_hero_id_fkey")
     else Err IncompatibleSlotError)
  ∧ commit armory (equip 2 dagger Slot.weapon armory) = armory.
Proof.
  apply (X3_unknown_hero armory 2 dagger Slot.weapon [ItemType.weapon]).
  - vm_compute. intros H. discriminate H.
  - vm_compute; reflexivity.
  - vm_compute; reflexivity.
Defined.

(** X4. The outcome of an equip does not depend on [hero_inventory]: with
    any other inventory table the statement succeeds or raises in the same
    way and writes the same equipment, so an item the hero does not own is
    equipped like any other. *)
Theorem X4_equip_ignores_inventory
    (d : database) (inv : gmap (uuid * uuid) Z) (h i : uuid) (s : equipment_slot) :
  equip h i s (with_hero_inventory inv d)
  = with_hero_inventory inv <$> equip h i s d.
Proof.
  rewrite !equip_eq. cbn [items heroes hero_equipment with_hero_inventory].
  destruct (items d !! i) as [tys|]; [|done].
  destruct (can_equip tys s); [|done]. by case_bool_decide.
Qed.

(** X5. Equipping into an empty slot and unequipping the slot again gives
    the database back, provided the equip did not clear the other hand: the
    item is not a two-handed weapon going into weapon or shield, or the
    other hand was empty. *)
Theorem X5_equip_unequip
    (d d' : database) (h i : uuid) (s : equipment_slot) (item_types : list item_type) :
  get_equipped d h s = None →
  items d !! i = Some item_types →
  (ItemType.two_handed_weapon ∈ item_types → s ∈ [Slot.weapon; Slot.shield] →
     get_equipped d h (other_hand s) = None) →
  equip h i s d = Ok d' →
  unequip h s d' = Ok d.
Proof.
  unfold get_equipped. intros Hn Hi Ho (tys & Hi' & _ & ->)%equip_Ok_inv.
  rewrite Hi in Hi'. injection Hi' as <-.
  rewrite unequip_eq. unfold with_hero_equipment. cbn. destruct d as [H I V E].
  cbn in *. do 2 f_equal. unfold equipped.
  destruct (s =ANY _) eqn:Hs; destruct (_ =ANY item_types) eqn:H2; cbn [andb];
    rewrite ?delete_insert_eq; try by apply delete_id.
  apply eq_any_true in Hs, H2.
  rewrite delete_delete, delete_insert_eq.
  rewrite (delete_id E (h, s)) by done. apply delete_id; auto.
Qed.

Lemma X5_scenario_dagger_on_and_off :
  unequip alice Slot.weapon (run_equip alice dagger Slot.weapon armory_with_buckler)
  = Ok armory_with_buckler.
Proof.
  apply (X5_equip_unequip armory_with_buckler _ alice dagger Slot.weapon
           [ItemType.weapon]).
  - vm_compute; reflexivity.
  - vm_compute; reflexivity.
  - intros H. exfalso. revert H. rewrite list_elem_of_singleton. discriminate.
  - vm_compute; reflexivity.
Defined.

Lemma run_equip_eq (h i : uuid) (s : equipment_slot) (d : database) :
  run_equip h i s d =
  match items d !! i with
  | Some item_types =>
      if can_equip item_types s
         && bool_decide (is_Some (hero_equipment d !! (h, s)) ∨ h ∈ heroes d)
      then with_hero_equipment
             (equipped (ItemType.two_handed_weapon =ANY item_types) h i s
                       (hero_equipment d)) d
      else d
  | None => d
  end.
Proof.
  unfold run_equip. rewrite equip_eq.
  destruct (items d !! i) as [tys|]; [|done].
  destruct (can_equip tys s); [|done]. by case_bool_decide.
Qed.

Lemma equipped_commute (b1 b2 : bool) (h1 h2 i1 i2 : uuid) (s1 s2 : equipment_slot)
    (E : gmap (uuid * equipment_slot) uuid) :
  h1 ≠ h2 →
  equipped b1 h1 i1 s1 (equipped b2 h2 i2 s2 E)
  = equipped b2 h2 i2 s2 (equipped b1 h1 i1 s1 E).
Proof.
  intros Hh. unfold equipped.
  destruct (_ && b1), (_ && b2); apply map_eq; intros k;
    repeat first [rewrite lookup_delete | rewrite lookup_insert | case_decide];
    simplify_eq; done.
Qed.

(** X6. Equips for two different heroes, each run as a transaction of its
    own, can be swapped: the database at the end is the same in either
    order, whether the statements succeed or are rolled back. *)
Theorem X6_equips_of_two_heroes_commute
    (d : database) (h1 h2 i1 i2 : uuid) (s1 s2 : equipment_slot) :
  h1 ≠ h2 →
  run_equip h1 i1 s1 (run_equip h2 i2 s2 d)
  = run_equip h2 i2 s2 (run_equip h1 i1 s1 d).
Proof.
  intros Hh.
  rewrite (run_equip_eq h2 i2 s2 d), (run_equip_eq h1 i1 s1 d).
  destruct (items d !! i1) as [t1|] eqn:H1, (items d !! i2) as [t2|] eqn:H2;
    rewrite ?(run_equip_eq h1 i1 s1), ?(run_equip_eq h2 i2 s2);
    repeat match goal with
    | |- context [if ?c then _ else _] =>
        lazymatch c with
        | can_equip _ _ && _ => destruct c eqn:?
        end;
        cbn [items heroes hero_equipment with_hero_equipment];
        rewrite ?H1, ?H2, ?equipped_lookup_other_hero by congruence
    end;
    cbn [items heroes hero_equipment with_hero_equipment];
    rewrite ?H1, ?H2; try done; try congruence.
  unfold with_hero_equipment. cbn. f_equal. by apply equipped_commute.
Qed.

Lemma X6_scenario_alice_and_stranger :
  run_equip alice dagger Slot.weapon (run_equip 2 buckler Slot.shield armory)
  = run_equip 2 buckler Slot.shield (run_equip alice dagger Slot.weapon armory).
Proof.
  apply (X6_equips_of_two_heroes_commute armory alice 2 dagger buckler
           Slot.weapon Slot.shield).
  discriminate.
Defined.

(** X7. The two-handed rule acts only on the write of the two-handed
    weapon.  With a two-handed weapon [i] and a one-handed item [j] that
    fits the other hand, equipping [i] first and [j] second leaves both
    equipped, while equipping [j] first and [i] second ends with the other
    hand empty: the order of the two equips decides the outcome. *)
Theorem X7_two_handed_rule_is_one_way
    (d : database) (h i j : uuid) (s : equipment_slot) (ti tj : list item_type) :
  h ∈ heroes d →
  s ∈ [Slot.weapon; Slot.shield] →
  items d !! i = Some ti → ItemType.two_handed_weapon ∈ ti →
  items d !! j = Some tj → ItemType.two_handed_weapon ∉ tj →
  can_equip tj (other_hand s) = true →
  let both := run_equip h j (other_hand s) (run_equip h i s d) in
  let swapped := run_equip h i s (run_equip h j (other_hand s) d) in
  get_equipped both h s = Some i
  ∧ get_equipped both h (other_hand s) = Some j
  ∧ get_equipped swapped h s = Some i
  ∧ get_equipped swapped h (other_hand s) = None.
Proof.
  intros Hh Hs Hi H2i Hj H2j Hcj both swapped.
  assert (can_equip ti s = true) as Hci.
  { apply can_equip_fits. right. left. by rewrite <- in_hands. }
  apply eq_any_true in H2i. apply eq_any_false in H2j.
  assert (other_hand s ∈ [Slot.weapon; Slot.shield]) as Hos.
  { apply in_hands in Hs as [-> | ->]; apply in_hands; auto. }
  assert (other_hand (other_hand s) = s) as Hoo.
  { by apply in_hands in Hs as [-> | ->]. }
  pose proof (other_hand_ne s) as Hne.
  subst both swapped. unfold get_equipped.
  rewrite (run_equip_eq h i s d), (run_equip_eq h j (other_hand s) d), Hi, Hj, Hci, Hcj.
  rewrite !(bool_decide_true (_ ∨ _)) by auto. cbn [andb].
  rewrite !run_equip_eq. cbn [items heroes hero_equipment with_hero_equipment].
  rewrite Hi, Hj, Hci, Hcj, H2i, H2j.
  rewrite !(bool_decide_true (_ ∨ _)) by auto.
  cbn [andb hero_equipment with_hero_equipment].
  split_and!.
  - rewrite equipped_one_handed, lookup_insert_ne by congruence.
    apply equipped_lookup_eq.
  - apply equipped_lookup_eq.
  - apply equipped_lookup_eq.
  - by apply equipped_lookup_other_hand.
Qed.

Lemma X7_scenario_sword_and_buckler :
  let both := run_equip alice buckler Slot.shield
                (run_equip alice greatsword Slot.weapon armory) in
  let swapped := run_equip alice greatsword Slot.weapon
                   (run_equip alice buckler Slot.shield armory) in
  get_equipped both alice Slot.weapon = Some greatsword
  ∧ get_equipped both alice Slot.shield = Some buckler
  ∧ get_equipped swapped alice Slot.weapon = Some greatsword
  ∧ get_equipped swapped alice Slot.shield = None.
Proof.
  apply (X7_two_handed_rule_is_one_way armory alice greatsword buckler
           Slot.weapon [ItemType.two_handed_weapon] [ItemType.shield]).
  - vm_compute; reflexivity.
  - apply list_elem_of_here.
  - vm_compute; reflexivity.
  - apply list_elem_of_here.
  - vm_compute; reflexivity.
  - rewrite list_elem_of_singleton. discriminate.
  - vm_compute; reflexivity.
Defined.

(** ** Deleting an item *)

Lemma delete_item_eq (i : uuid) (d : database) :
  is_Some (items d !! i) →
  delete_item i d
  = Ok {| heroes := heroes d;
          items := delete i (items d);
          hero_inventory := filter (λ kv, kv.1.2 ≠ i) (hero_inventory d);
          hero_equipment := filter (λ kv, kv.2 ≠ i) (hero_equipment d) |}.
Proof.
  intros [tys Hi].
  unfold delete_item, delete_from_hero_equipment, with_hero_equipment. cbn.
  rewrite Hi. do 2 f_equal.
  apply map_filter_ext. intros k j _. cbn. by rewrite bool_decide_eq_false.
Qed.

(** X8. Deleting an item always succeeds.  When the item exists, it is gone
    from [items] afterwards together with every equipment row and every
    inventory row that named it, in all slots of all heroes; rows that name
    other items, the other items and [heroes] are untouched.  When no such
    item exists nothing changes. *)
Theorem X8_delete_item_cascades (d : database) (i : uuid) :
  ∃ d', delete_item i d = Ok d'
    ∧ heroes d' = heroes d
    ∧ (∀ j, j ≠ i → items d' !! j = items d !! j)
    ∧ (∀ h s j, j ≠ i →
         get_equipped d' h s = Some j ↔ get_equipped d h s = Some j)
    ∧ (∀ h j, j ≠ i → hero_inventory d' !! (h, j) = hero_inventory d !! (h, j))
    ∧ (items d !! i = None → d' = d)
    ∧ (is_Some (items d !! i) →
         items d' !! i = None
         ∧ (∀ h s, get_equipped d' h s ≠ Some i)
         ∧ (∀ h, hero_inventory d' !! (h, i) = None)).
Proof.
  destruct (items d !! i) as [tys|] eqn:Hi.
  - eexists. split; [apply delete_item_eq; by rewrite Hi|].
    unfold get_equipped. cbn. split_and!; try done.
    + intros j Hj. by apply lookup_delete_ne.
    + intros h s j Hj. rewrite map_lookup_filter_Some. cbn. tauto.
    + intros h j Hj. rewrite map_lookup_filter.
      destruct (hero_inventory d !! (h, j)); [|done]. cbn.
      by rewrite option_guard_True.
    + intros _. split_and!.
      * apply lookup_delete_eq.
      * intros h s [_ H]%map_lookup_filter_Some. by apply H.
      * intros h. apply map_lookup_filter_None. right. intros q _ H. by apply H.
  - exists d. unfold delete_item. rewrite Hi.
    split_and!; try done.
Qed.

(** X9. The foreign keys of [hero_equipment] and [hero_inventory] survive
    every successful equip, unequip and item deletion: when each row named
    a hero of [heroes] and an item of [items] before the statement, each row
    does afterwards. *)
Theorem X9_references_kept (d d' : database) :
  references_ok d → equipment_step d d' → references_ok d'.
Proof.
  intros [He Hv] [h i s Heq | h s Heq | i Heq].
  - rewrite equip_eq in Heq.
    destruct (items d !! i) as [tys|] eqn:Hi; [|done].
    destruct (can_equip tys s); [|done].
    case_bool_decide as Hb; [|done]. injection Heq as <-.
    split; [|exact Hv]. cbn. intros h' s' j Hj.
    apply equipped_lookup_Some in Hj as [[[= -> ->] ->] | Hj]; [|by apply (He h' s' j)].
    split; [|by rewrite Hi].
    destruct Hb as [[j Hj] | Hh]; [|done]. by apply He in Hj as [? _].
  - rewrite unequip_eq in Heq. injection Heq as <-.
    split; [|exact Hv]. cbn. intros h' s' j [_ Hj]%lookup_delete_Some.
    by apply (He h' s' j).
  - destruct (items d !! i) as [tys|] eqn:Hi.
    + rewrite delete_item_eq in Heq by (by rewrite Hi). injection Heq as <-.
      split; cbn.
      * intros h s j [Hj Hne]%map_lookup_filter_Some. cbn in Hne.
        rewrite lookup_delete_ne by done. by apply He in Hj.
      * intros h j q [Hj Hne]%map_lookup_filter_Some. cbn in Hne.
        rewrite lookup_delete_ne by done. by apply Hv in Hj.
    + unfold delete_item in Heq. rewrite Hi in Heq. by injection Heq as <-.
Qed.

Lemma X9_scenario_buckler_equipped :
  references_ok (run_equip alice buckler Slot.shield armory).
Proof.
  apply (X9_references_kept armory).
  - split.
    + intros h s i H. cbn in H. by rewrite lookup_empty in H.
    + intros h i q H. cbn in H.
      apply lookup_singleton_Some in H as [[= <- <-] <-].
      split; vm_compute; eauto.
  - apply (step_equip _ _ alice buckler Slot.shield). vm_compute; reflexivity.
Defined.

(** ** Realms and their creators *)

Lemma validate_realm_creator_cases (rd : realm_db) (r : realms_row) :
  (qualifies rd (created_by r) ∧ validate_realm_creator rd r = Done r)
  ∨ (¬ qualifies rd (created_by r)
     ∧ validate_realm_creator rd r = Fail realm_creator_error).
Proof.
  unfold validate_realm_creator, qualifies.
  destruct (hero_rows rd !! created_by r) as [hero|] eqn:Hh.
  - destruct (is_developer hero) as [[]|] eqn:Hd,
             (is_paying_customer hero) as [[]|] eqn:Hp; cbn;
      first [ left; split; [exists hero; auto | done]
            | right; split; [|done];
              intros (hero' & [= <-] & [H | H]); congruence ].
  - right. split; [|done]. by intros (hero' & [=] & _).
Qed.

(** X10. A realm can be inserted exactly by a creator whose row in [heroes]
    has [is_developer] or [is_paying_customer] set to true; a missing hero
    and a flag that is NULL or false do not count.  The trigger's exception
    comes before the primary key: a creator who does not qualify gets it
    also for an id that is taken.  For a creator who qualifies the insert
    stores the row under a free id and reports a taken id as a unique
    violation. *)
Theorem X10_realm_creator_gate (rd : realm_db) (id : uuid) (r : realms_row) :
  (insert_realm id r rd = Fail realm_creator_error
     ↔ ¬ qualifies rd (created_by r))
  ∧ (qualifies rd (created_by r) →
       insert_realm id r rd =
         if bool_decide (is_Some (realms rd !! id))
         then Fail (unique_violation "realms_pkey")
         else Done (with_realms (<[id := r]> (realms rd)) rd)).
Proof.
  unfold insert_realm.
  destruct (validate_realm_creator_cases rd r) as [[Hq ->] | [Hq ->]]; cbn.
  - assert (check_created_by_fkey rd r = Done ()) as ->.
    { unfold check_created_by_fkey. destruct Hq as (hero & -> & _).
      by rewrite bool_decide_true by eauto. }
    split; [|done]. split; [|done]. by case_bool_decide.
  - split; [done|]. done.
Qed.

Lemma realm_write_inv (rd rd' : realm_db) (id : uuid) (r : realms_row) :
  (r' ← validate_realm_creator rd r;
   _ ← check_created_by_fkey rd r';
   Done (with_realms (<[id := r']> (realms rd)) rd)) = Done rd' →
  qualifies rd (created_by r)
  ∧ rd' = with_realms (<[id := r]> (realms rd)) rd.
Proof.
  destruct (validate_realm_creator_cases rd r) as [[Hq ->] | [Hq ->]]; cbn;
    [|done].
  destruct (check_created_by_fkey rd r); cbn; [|done].
  by intros [= <-].
Qed.

(** X11. While [heroes] is not written, every realm has a creator who
    qualifies: the property holds in each state reached from a database
    without realms by successful inserts, updates and deletes of realms. *)
Theorem X11_creators_qualify (rd : realm_db) (id : uuid) (r : realms_row) :
  realms_reachable rd →
  realms rd !! id = Some r →
  qualifies rd (created_by r).
Proof.
  intros Hr. revert id r.
  induction Hr as [rd He | rd rd' k r0 _ IH Hs | rd rd' k f _ IH Hs
                  | rd rd' k _ IH Hs]; intros id r Hl.
  - by rewrite He, lookup_empty in Hl.
  - unfold insert_realm in Hs.
    destruct (validate_realm_creator_cases rd r0) as [[Hq Hv] | [Hq Hv]];
      rewrite Hv in Hs; cbn in Hs; [|done].
    case_bool_decide; [done|].
    destruct (check_created_by_fkey rd r0); cbn in Hs; [|done].
    injection Hs as <-. cbn in Hl.
    apply lookup_insert_Some in Hl as [[<- <-] | [_ Hl]]; [done|].
    by apply (IH id).
  - unfold update_realm in Hs.
    destruct (realms rd !! k) as [OLD|] eqn:Hk.
    + apply realm_write_inv in Hs as [Hq ->]. cbn in Hl.
      apply lookup_insert_Some in Hl as [[<- <-] | [_ Hl]]; [done|].
      by apply (IH id).
    + injection Hs as <-. by apply (IH id).
  - unfold delete_realm in Hs.
    destruct (realms rd !! k) as [OLD|] eqn:Hk; injection Hs as <-.
    + cbn in Hl. apply lookup_delete_Some in Hl as [_ Hl]. by apply (IH id).
    + by apply (IH id).
Qed.

Lemma X11_scenario_hearth :
  qualifies (settled guild (insert_realm 100 hearth guild)) (created_by hearth).
Proof.
  apply (X11_creators_qualify _ 100 hearth).
  - apply (realms_reachable_insert guild _ 100 hearth).
    + apply realms_reachable_empty. reflexivity.
    + vm_compute; reflexivity.
  - vm_compute; reflexivity.
Defined.

(** X12. The gate is checked on writes of [realms] only.  When the creator
    of a realm has both flags taken away (set to false or NULL), the update
    of [heroes] succeeds and the realm stays; from then on every UPDATE of
    that realm which keeps its creator, a rename for one, raises the
    trigger's exception. *)
Theorem X12_revoked_creator_freezes_realm
    (rd rd' : realm_db) (id : uuid) (r : realms_row) (dev pay : option bool) :
  realms rd !! id = Some r →
  dev ≠ Some true → pay ≠ Some true →
  update_hero_flags (created_by r) dev pay rd = Done rd' →
  realms rd' !! id = Some r
  ∧ ¬ qualifies rd' (created_by r)
  ∧ ∀ assign, created_by (assign r) = created_by r →
      update_realm id assign rd' = Fail realm_creator_error.
Proof.
  intros Hr Hd Hp Hu. unfold update_hero_flags in Hu.
  assert (realms rd' = realms rd ∧ ¬ qualifies rd' (created_by r)) as [Hsame Hnq].
  { destruct (hero_rows rd !! created_by r) as [OLD|] eqn:Ho;
      injection Hu as <-; (split; [done|]); unfold qualifies; cbn.
    - rewrite lookup_insert_eq. intros (hero & [= <-] & [H | H]); cbn in H; congruence.
    - rewrite Ho. by intros (hero & [=] & _). }
  rewrite Hsame. split_and!; [done | done |].
  intros assign Hc. unfold update_realm. rewrite Hsame, Hr.
  destruct (validate_realm_creator_cases rd' (assign r)) as [[Hq _] | [_ ->]];
    [|done].
  by rewrite Hc in Hq.
Qed.

Lemma X12_scenario_bob_stops_paying :
  let rd' := settled guild_with_hearth
               (update_hero_flags bob None (Some false) guild_with_hearth) in
  realms rd' !! 100 = Some hearth
  ∧ ¬ qualifies rd' (created_by hearth)
  ∧ ∀ assign, created_by (assign hearth) = created_by hearth →
      update_realm 100 assign rd' = Fail realm_creator_error.
Proof.
  apply (X12_revoked_creator_freezes_realm guild_with_hearth _ 100 hearth
           None (Some false)).
  - vm_compute; reflexivity.
  - discriminate.
  - discriminate.
  - vm_compute; reflexivity.
Defined.

(** ** Cascading deletes *)

(** X13. Deleting a realm takes with it the memberships of the realm, its
    quest boards and the quests on those boards, two foreign keys deep, and
    nothing else: the other realms, the memberships and boards of other
    realms, quests without a board and quests on surviving boards stay as
    they are, [heroes] is untouched, and every surviving quest whose board
    existed before still has its board. *)
Theorem X13_delete_realm_cascades (rd : realm_db) (id : uuid) (r : realms_row) :
  realms rd !! id = Some r →
  ∃ rd', delete_realm id rd = Done rd'
    ∧ hero_rows rd' = hero_rows rd
    ∧ realms rd' = delete id (realms rd)
    ∧ (∀ h k, realm_members rd' !! (h, k) =
                if decide (k = id) then None else realm_members rd !! (h, k))
    ∧ (∀ b board, quest_boards rd' !! b = Some board ↔
                   quest_boards rd !! b = Some board ∧ realm_id board ≠ Some id)
    ∧ (∀ k q, quests rd' !! k = Some q ↔
               quests rd !! k = Some q
               ∧ ∀ b board, quest_board_id q = Some b →
                            quest_boards rd !! b = Some board →
                            realm_id board ≠ Some id)
    ∧ (∀ k q b, quests rd' !! k = Some q → quest_board_id q = Some b →
                is_Some (quest_boards rd !! b) → is_Some (quest_boards rd' !! b)).
Proof.
  intros Hr. unfold delete_realm. rewrite Hr. eexists. split; [done|]. cbn.
  assert (∀ k q, filter (λ kv, on_board_of rd id kv.2 = false) (quests rd) !! k
                 = Some q ↔
                 quests rd !! k = Some q
                 ∧ ∀ b board, quest_board_id q = Some b →
                              quest_boards rd !! b = Some board →
                              realm_id board ≠ Some id) as Hq.
  { intros k q. rewrite map_lookup_filter_Some. cbn. unfold on_board_of.
    split; intros [Hk Hc]; (split; [done|]).
    - intros b board Hb Hl. rewrite Hb, Hl in Hc.
      by apply bool_decide_eq_false in Hc.
    - destruct (quest_board_id q) as [b|]; [|done].
      destruct (quest_boards rd !! b) as [board|] eqn:Hl; [|done].
      apply bool_decide_eq_false. by apply (Hc b). }
  split_and!; try done.
  - intros h k. rewrite map_lookup_filter. cbn.
    destruct (realm_members rd !! (h, k)); cbn; case_decide; try done.
    + subst k. by rewrite option_guard_False by auto.
    + by rewrite option_guard_True.
  - intros b board. by rewrite map_lookup_filter_Some.
  - intros k q b Hk Hb [board Hl]. apply Hq in Hk as [_ Hc].
    exists board. apply map_lookup_filter_Some. split; [done|]. cbn.
    by apply (Hc b).
Qed.

Lemma X13_scenario_hearth_deleted :
  ∃ rd', delete_realm 100 guild_with_hearth = Done rd'
    ∧ hero_rows rd' = hero_rows guild_with_hearth
    ∧ realms rd' = delete 100 (realms guild_with_hearth)
    ∧ (∀ h k, realm_members rd' !! (h, k) =
                if decide (k = 100) then None
                else realm_members guild_with_hearth !! (h, k))
    ∧ (∀ b board, quest_boards rd' !! b = Some board ↔
                   quest_boards guild_with_hearth !! b = Some board
                   ∧ realm_id board ≠ Some 100)
    ∧ (∀ k q, quests rd' !! k = Some q ↔
               quests guild_with_hearth !! k = Some q
               ∧ ∀ b board, quest_board_id q = Some b →
                            quest_boards guild_with_hearth !! b = Some board →
                            realm_id board ≠ Some 100)
    ∧ (∀ k q b, quests rd' !! k = Some q → quest_board_id q = Some b →
                is_Some (quest_boards guild_with_hearth !! b) →
                is_Some (quest_boards rd' !! b)).
Proof.
  apply (X13_delete_realm_cascades guild_with_hearth 100 hearth).
  vm_compute; reflexivity.
Defined.

(** X14. A hero who created a realm cannot be deleted: the statement fails
    on the foreign key of [realms.created_by].  A hero with a row and
    without a realm of their own is deleted together with all their
    equipment, inventory and memberships; the rows of other heroes, [items],
    [realms], the boards and the quests are untouched. *)
Theorem X14_delete_hero (d : database) (rd : realm_db) (h : uuid) :
  is_Some (hero_rows rd !! h) →
  ((∃ id r, realms rd !! id = Some r ∧ created_by r = h) →
     delete_hero h (d, rd)
     = Fail (equipment_error (foreign_key_violation "realms_created_by_fkey")))
  ∧ ((∀ id r, realms rd !! id = Some r → created_by r ≠ h) →
     ∃ d' rd', delete_hero h (d, rd) = Done (d', rd')
       ∧ (h ∉ heroes d') ∧ hero_rows rd' !! h = None
       ∧ (∀ h', h' ≠ h → (h' ∈ heroes d' ↔ h' ∈ heroes d)
                          ∧ hero_rows rd' !! h' = hero_rows rd !! h')
       ∧ (∀ h' s, get_equipped d' h' s =
                    if decide (h' = h) then None else get_equipped d h' s)
       ∧ (∀ h' i, hero_inventory d' !! (h', i) =
                    if decide (h' = h) then None else hero_inventory d !! (h', i))
       ∧ (∀ h' k, realm_members rd' !! (h', k) =
                    if decide (h' = h) then None else realm_members rd !! (h', k))
       ∧ items d' = items d ∧ realms rd' = realms rd
       ∧ quest_boards rd' = quest_boards rd ∧ quests rd' = quests rd).
Proof.
  intros [hero Hh]. unfold delete_hero. cbn. rewrite Hh. split.
  - intros (id & r & Hr & Hc). rewrite bool_decide_true; [done|].
    by exists id, r.
  - intros Hn. rewrite bool_decide_false.
    2: { intros (id & r & Hr & Hc). by apply (Hn id r). }
    eexists _, _. split; [done|]. unfold get_equipped. cbn.
    split_and!; try done.
    + rewrite elem_of_difference, elem_of_singleton. tauto.
    + apply lookup_delete_eq.
    + intros h' Hne. split; [|by apply lookup_delete_ne].
      rewrite elem_of_difference, elem_of_singleton. tauto.
    + intros h' s. rewrite map_lookup_filter. cbn.
      destruct (hero_equipment d !! (h', s)); cbn; case_decide; try done.
      * subst h'. rewrite option_guard_False; [done|].
        rewrite bool_decide_eq_false. auto.
      * rewrite option_guard_True; [done|]. by rewrite bool_decide_eq_false.
    + intros h' i. rewrite map_lookup_filter. cbn.
      destruct (hero_inventory d !! (h', i)); cbn; case_decide; try done.
      * subst h'. by rewrite option_guard_False by auto.
      * by rewrite option_guard_True.
    + intros h' k. rewrite map_lookup_filter. cbn.
      destruct (realm_members rd !! (h', k)); cbn; case_decide; try done.
      * subst h'. by rewrite option_guard_False by auto.
      * by rewrite option_guard_True.
Qed.

Lemma X14_scenario_bob_stays_alice_goes :
  delete_hero bob (armory_with_buckler, guild_with_hearth)
  = Fail (equipment_error (foreign_key_violation "realms_created_by_fkey"))
  ∧ ∃ d' rd', delete_hero alice (armory_with_buckler, guild_with_hearth)
              = Done (d', rd')
              ∧ get_equipped d' alice Slot.shield = None
              ∧ realm_members rd' !! (alice, 100) = None
              ∧ realm_members rd' !! (bob, 100) = Some owner.
Proof.
  split.
  - apply (X14_delete_hero armory_with_buckler guild_with_hearth bob).
    + vm_compute; eauto.
    + exists 100, hearth. split; vm_compute; reflexivity.
  - destruct (X14_delete_hero armory_with_buckler guild_with_hearth alice)
      as [_ H].
    + vm_compute; eauto.
    + destruct H as (d' & rd' & Hd & _ & _ & _ & He & _ & Hm & _).
      * intros id r Hr. cbn in Hr.
        apply lookup_singleton_Some in Hr as [_ <-]. discriminate.
      * exists d', rd'. split_and!; [exact Hd | | |].
        -- rewrite He. reflexivity.
        -- rewrite Hm. reflexivity.
        -- rewrite Hm. vm_compute; reflexivity.
Defined.

(** ** The CHECK constraints of quests *)




(** ** The Supabase client of the server *)

Lemma truthy_true (v : option string) :
  truthy v = true ↔ ∃ s, v = Some s ∧ s ≠ "".
Proof.
  destruct v as [s|]; cbn.
  - rewrite negb_true_iff, String.eqb_neq. split; [eauto|].
    by intros (? & [= <-] & ?).
  - split; [done|]. by intros (? & [=] & _).
Qed.

Lemma isSupabaseConfigured_true (env : process_env) :
  isSupabaseConfigured env = true ↔
  ∃ url key, SUPABASE_URL env = Some url ∧ SUPABASE_ANON_KEY env = Some key
             ∧ url ≠ "" ∧ key ≠ "".
Proof.
  unfold isSupabaseConfigured, js_and.
  destruct (truthy (SUPABASE_URL env)) eqn:Hu.
  - apply truthy_true in Hu as (url & -> & Hu). rewrite truthy_true. split.
    + intros (key & -> & Hk). by exists url, key.
    + intros (? & key & [= <-] & -> & _ & Hk). by exists key.
  - rewrite Hu. split; [done|]. intros (url & key & Hs & _ & Hn & _).
    assert (truthy (SUPABASE_URL env) = true) by (apply truthy_true; eauto).
    congruence.
Qed.

Lemma getSupabaseClient_cases (env : process_env) (m : module_state) :
  (isSupabaseConfigured env = false ∧ getSupabaseClient env m = (None, m))
  ∨ (isSupabaseConfigured env = true
     ∧ ∃ c n, getSupabaseClient env m
              = (Some c, {| supabase := Some c; createClient_calls := n |})
              ∧ ((supabase m = Some c ∧ n = createClient_calls m)
                 ∨ (supabase m = None ∧ n = S (createClient_calls m)))).
Proof.
  unfold getSupabaseClient. destruct m as [[c0|] n], (isSupabaseConfigured env);
    cbn; eauto 10.
Qed.

Lemma get_clients_inv (envs : list process_env) (m : module_state) :
  (∀ c, Some c ∈ (get_clients envs m).1 →
        supabase (get_clients envs m).2 = Some c)
  ∧ (∀ c0, supabase m = Some c0 →
           supabase (get_clients envs m).2 = Some c0
           ∧ createClient_calls (get_clients envs m).2 = createClient_calls m)
  ∧ (supabase m = None →
       (createClient_calls (get_clients envs m).2 ≤ S (createClient_calls m))%nat)
  ∧ Forall2 (λ env c, is_Some c ↔ isSupabaseConfigured env = true)
            envs (get_clients envs m).1.
Proof.
  revert m. induction envs as [|env envs IH]; intros m.
  - cbn. split_and!; [by intros c ?%elem_of_nil | done | lia | constructor].
  - cbn [get_clients].
    destruct (getSupabaseClient_cases env m)
      as [[Hc ->] | (Hc & c1 & n & -> & Hm)].
    + destruct (IH m) as (Hall & Hkeep & Hle & Hf).
      destruct (get_clients envs m) as [cs m2]. cbn in *.
      split_and!; [| done | done |].
      * intros c [[=] | Hin]%elem_of_cons. by apply Hall.
      * constructor; [|done]. rewrite Hc. split; [by intros [? [=]] | done].
    + set (m1 := {| supabase := Some c1; createClient_calls := n |}).
      destruct (IH m1) as (Hall & Hkeep & _ & Hf).
      destruct (Hkeep c1 eq_refl) as [Hs Hn].
      destruct (get_clients envs m1) as [cs m2]. cbn in *.
      split_and!.
      * intros c [[= <-] | Hin]%elem_of_cons; [done | by apply Hall].
      * intros c0 Hc0. destruct Hm as [[Hm ->] | [Hm _]]; [|congruence].
        split; congruence.
      * intros Hnone. destruct Hm as [[Hm _] | [_ ->]]; [congruence | lia].
      * constructor; [|done]. rewrite Hc. split; [done | eauto].
Qed.

(** X16. Over any run of calls of [getSupabaseClient] from a fresh module,
    with the environment free to change between the calls: [createClient]
    is called at most once; a call returns null exactly when one of the two
    variables is undefined or empty at that call; and all clients returned
    are one and the same, the one the module variable holds at the end, so
    a client once created keeps its URL and key whatever the environment
    says later. *)
Theorem X16_client_created_once (envs : list process_env) :
  (createClient_calls (get_clients envs fresh_module).2 ≤ 1)%nat
  ∧ Forall2 (λ env c, is_Some c ↔ isSupabaseConfigured env = true)
            envs (get_clients envs fresh_module).1
  ∧ (∀ c, Some c ∈ (get_clients envs fresh_module).1 →
          supabase (get_clients envs fresh_module).2 = Some c)
  ∧ (∀ c c', Some c ∈ (get_clients envs fresh_module).1 →
             Some c' ∈ (get_clients envs fresh_module).1 → c = c').
Proof.
  destruct (get_clients_inv envs fresh_module) as (Hall & _ & Hle & Hf).
  split_and!; [by apply Hle | done | done |].
  intros c c' Hc Hc'. apply Hall in Hc, Hc'. congruence.
Qed.

(** ** The login and sign-up actions *)

Lemma getSupabaseClient_configured (env : process_env) (m : module_state) :
  isSupabaseConfigured env = true →
  ∃ c m', getSupabaseClient env m = (Some c, m').
Proof.
  intros Hc.
  destruct (getSupabaseClient_cases env m)
    as [[Hn _] | (_ & c & n & -> & _)]; [congruence | eauto].
Qed.

(** X17. The login action never answers "Database connection not available":
    once the configuration check has passed the client is there, so that
    branch is dead.  It redirects to the dashboard exactly when the server is
    configured and the sign-in resolves without an error and with a
    session; a reply that carries an error is answered with that message
    and status 400 also when it carries a session; status 500 is given only
    when the sign-in rejects. *)
Theorem X17_login_action
    (env : process_env) (m : module_state)
    (sign_in : client → option string → option string → sign_in_reply)
    (email_field password_field : option string) :
  let answer := (login_action env m sign_in email_field password_field).1 in
  answer ≠ json (error_body "Database connection not available") 500
  ∧ (answer = redirect "/dashboard" ↔
       isSupabaseConfigured env = true
       ∧ ∃ c, (getSupabaseClient env m).1 = Some c
              ∧ sign_in c email_field password_field = sign_in_resolves None true)
  ∧ (∀ c message session,
       (getSupabaseClient env m).1 = Some c →
       sign_in c email_field password_field
         = sign_in_resolves (Some message) session →
       answer = json (error_body message) 400)
  ∧ (∀ body, answer = json body 500 →
       ∃ c, (getSupabaseClient env m).1 = Some c
            ∧ sign_in c email_field password_field = sign_in_rejects).
Proof.
  cbn zeta. unfold login_action.
  destruct (isSupabaseConfigured env) eqn:Hc; cbn [negb].
  - destruct (getSupabaseClient_configured env m Hc) as (c & m' & ->). cbn.
    destruct (sign_in c email_field password_field) as [|[msg|] []] eqn:Hs;
      cbn; split_and!; try done.
    all: try (intros c0 message session [= <-] Hs'; congruence).
    all: try (intros body _; by exists c).
    all: split; try done.
    all: try (intros (_ & c0 & [= <-] & Hs'); congruence).
    intros _. split; [done | by exists c].
  - cbn. split_and!; try done.
    + split; [done | by intros [? _]].
    + unfold getSupabaseClient. rewrite Hc. done.
Qed.


(** X19. A hero row as the sign-up route inserts it, with [id], [email]
    and [display_name] only, has both flags at their default false: the new
    hero does not qualify as a realm creator, and every insert of a realm
    in that hero's name raises the trigger's exception. *)
Theorem X19_new_hero_cannot_found_realm
    (rd rd' : realm_db) (h : uuid) (mail display : string) :
  insert_hero_profile h mail display rd = Done rd' →
  ¬ qualifies rd' h
  ∧ ∀ id realm_name,
      insert_realm id {| name := realm_name; created_by := h |} rd'
      = Fail realm_creator_error.
Proof.
  unfold insert_hero_profile. case_bool_decide; [done|].
  case_bool_decide; [done|]. intros [= <-].
  assert (¬ qualifies
            (with_hero_rows
               (<[h := {| email := mail; display_name := display;
                          is_developer := Some false;
                          is_paying_customer := Some false |}]> (hero_rows rd))
               rd) h) as Hnq.
  { unfold qualifies. cbn. rewrite lookup_insert_eq.
    intros (hero & [= <-] & [Hf | Hf]); discriminate Hf. }
  set (rd' := with_hero_rows _ rd) in *.
  split; [done|]. intros id realm_name. unfold insert_realm.
  by destruct (validate_realm_creator_cases rd'
                 {| name := realm_name; created_by := h |})
    as [[Hq _] | [_ ->]].
Qed.

Lemma X19_scenario_carol_signs_up :
  let rd' := settled guild
               (insert_hero_profile 3 "carol@example.org" "Carol" guild) in
  ¬ qualifies rd' 3
  ∧ ∀ id realm_name,
      insert_realm id {| name := realm_name; created_by := 3 |} rd'
      = Fail realm_creator_error.
Proof.
  apply (X19_new_hero_cannot_found_realm guild _ 3 "carol@example.org" "Carol").
  vm_compute; reflexivity.
Defined.
